(** * pjm: the mappings.dev scraper of [mappings.py], embedded and verified

  The development follows [src/mappings.py]:
  - [PyStr]: the string operations of the Python runtime the code relies on
    ([str.strip], [str.split], [str.startswith], [in], [int], and the two
    regular expressions written out in the source);
  - [Html]: the parsed document and the XPath queries the code issues;
  - [Engine]: the class [Mappings] with [__init__], [_detect_selectors],
    [fetch], [_process_member_table] and [get], as state passing functions
    that also return what the code prints.

  Text is a Rocq [string], one [ascii] per code point, so the model covers
  text whose code points are below 256.  The network and the HTML parser
  are a boundary: [fetch] takes the function that maps a URL to the parsed
  page or to the exception [requests]/[lxml] raised. *)

From Stdlib Require Import ZArith Ascii String List Bool Lia.
From stdpp Require Import base option list strings gmap.

Import ListNotations.
Open Scope string_scope.
Open Scope list_scope.

(** ** Python string operations *)
Module PyStr.

Definition code (c : ascii) : nat := nat_of_ascii c.

Definition in_range (lo hi : nat) (c : ascii) : bool :=
  (lo <=? code c)%nat && (code c <=? hi)%nat.

(** [str.isspace] on one character (code points below 256). *)
Definition py_isspace (c : ascii) : bool :=
  in_range 9 13 c || in_range 28 32 c || (code c =? 133)%nat || (code c =? 160)%nat.

Definition is_digit (c : ascii) : bool := in_range 48 57 c.
Definition is_upper (c : ascii) : bool := in_range 65 90 c.
Definition is_lower (c : ascii) : bool := in_range 97 122 c.
(** The character class [[a-zA-Z]]. *)
Definition is_alpha (c : ascii) : bool := is_lower c || is_upper c.

Fixpoint lstrip_by (sp : ascii -> bool) (s : string) : string :=
  match s with
  | String c r => if sp c then lstrip_by sp r else s
  | EmptyString => EmptyString
  end.

Fixpoint rstrip_by (sp : ascii -> bool) (s : string) : string :=
  match s with
  | String c r =>
      match rstrip_by sp r with
      | EmptyString => if sp c then EmptyString else String c EmptyString
      | r' => String c r'
      end
  | EmptyString => EmptyString
  end.

(** [s.strip()] *)
Definition strip (s : string) : string := rstrip_by py_isspace (lstrip_by py_isspace s).

(** [s.split(sep)] for a one character separator: never empty. *)
Fixpoint split (sep : ascii) (s : string) : list string :=
  match s with
  | EmptyString => [EmptyString]
  | String c r =>
      if Ascii.eqb c sep then EmptyString :: split sep r
      else match split sep r with
           | w :: ws => String c w :: ws
           | [] => [String c EmptyString]
           end
  end.

(** [s.split()]: the maximal runs of non-whitespace characters. *)
Fixpoint split_ws_aux (cur : string) (s : string) : list string :=
  match s with
  | EmptyString => match cur with EmptyString => [] | _ => [cur] end
  | String c r =>
      if py_isspace c
      then match cur with
           | EmptyString => split_ws_aux EmptyString r
           | _ => cur :: split_ws_aux EmptyString r
           end
      else split_ws_aux (cur +:+ String c EmptyString) r
  end.
Definition split_ws (s : string) : list string := split_ws_aux EmptyString s.

(** [s.startswith(p)] *)
Fixpoint startswith (p s : string) : bool :=
  match p, s with
  | EmptyString, _ => true
  | String a p', String b s' => Ascii.eqb a b && startswith p' s'
  | String _ _, EmptyString => false
  end.

(** [p in s] *)
Fixpoint contains (p s : string) : bool :=
  startswith p s ||
  match s with
  | String _ r => contains p r
  | EmptyString => false
  end.

(** [s.replace(a, b)] for one character [a] and one character [b]. *)
Fixpoint replace (a b : ascii) (s : string) : string :=
  match s with
  | EmptyString => EmptyString
  | String c r => String (if Ascii.eqb c a then b else c) (replace a b r)
  end.

Definition all_chars (p : ascii -> bool) (s : string) : bool :=
  forallb p (list_ascii_of_string s).

(** What [$] allows at the end of a match without [re.MULTILINE]: the end
    of the text, or one line feed that ends the text. *)
Definition at_dollar (s : string) : bool :=
  String.eqb s "" || String.eqb s (String "010" "").

(** The text without the final line feed [$] may leave unmatched. *)
Fixpoint dollar_body (s : string) : string :=
  match s with
  | String c r =>
      if Ascii.eqb c "010" && String.eqb r "" then EmptyString
      else String c (dollar_body r)
  | EmptyString => EmptyString
  end.

(** [re.match(r'^[a-zA-Z]{1,4}$', s)] *)
Definition re_letters_1_4 (s : string) : bool :=
  let b := dollar_body s in
  (1 <=? String.length b)%nat && (String.length b <=? 4)%nat && all_chars is_alpha b.

(** [digits+ "_" letter] followed by what [$] allows. *)
Fixpoint re_digits_us_letter (seen : bool) (s : string) : bool :=
  match s with
  | String c r =>
      if is_digit c then re_digits_us_letter true r
      else seen && Ascii.eqb c "_" &&
           match r with
           | String l e => is_alpha l && at_dollar e
           | EmptyString => false
           end
  | EmptyString => false
  end.

Definition drop_prefix (p s : string) : option string :=
  if startswith p s
  then Some (String.substring (String.length p) (String.length s - String.length p) s)
  else None.

(** [re.match(r'^(field_|method_|func_)[0-9]+_[a-zA-Z]$', s)] *)
Definition re_searge_member (s : string) : bool :=
  match drop_prefix "field_" s, drop_prefix "method_" s, drop_prefix "func_" s with
  | Some r, _, _ | None, Some r, _ | None, None, Some r => re_digits_us_letter false r
  | None, None, None => false
  end.

(** White space [int] skips around the number: the C locale white space,
    and the two code points below 256 that [int] first turns into a
    blank. *)
Definition int_isspace (c : ascii) : bool :=
  in_range 9 13 c || (code c =? 32)%nat || (code c =? 133)%nat || (code c =? 160)%nat.

Definition digit_val (c : ascii) : Z := Z.of_nat (code c) - 48.

(** The digit loop of [int]: digits with single underscores between them.
    [prev_us] says that the previous character was an underscore. *)
Fixpoint scan_digits (prev_us : bool) (acc : Z) (n : nat) (s : string)
  : option (Z * nat * string) :=
  match s with
  | String c r =>
      if is_digit c then scan_digits false (10 * acc + digit_val c) (S n) r
      else if Ascii.eqb c "_" then
             if prev_us then None else scan_digits true acc n r
      else if prev_us then None else Some (acc, n, s)
  | EmptyString => if prev_us then None else Some (acc, n, EmptyString)
  end.

(** The most digits [int] converts ([sys.get_int_max_str_digits()], not
    changed by the program); the sign, the underscores and the white space
    around the number do not count. *)
Definition int_max_str_digits : Z := 4300.

(** [int(s)] in base ten: [None] stands for [ValueError], which is also
    what a number of more than [int_max_str_digits] digits raises. *)
Definition py_int (s : string) : option Z :=
  let s1 := lstrip_by int_isspace s in
  let '(sign, s2) :=
    match s1 with
    | String "+" r => (1%Z, r)
    | String "-" r => ((-1)%Z, r)
    | _ => (1%Z, s1)
    end in
  if startswith "_" s2 then None
  else match scan_digits false 0 0 s2 with
       | Some (v, n, rest) =>
           match n, lstrip_by int_isspace rest with
           | S _, EmptyString =>
               if (int_max_str_digits <? Z.of_nat n)%Z then None else Some (sign * v)%Z
           | _, _ => None
           end
       | None => None
       end.

End PyStr.


(** ** The parsed page and the XPath queries of the source *)
Module Html.
Import PyStr.

(** An element with its attributes and children, or a text node. *)
#[local] Unset Elimination Schemes.
Inductive node :=
| Text (s : string)
| Elem (tag : string) (attrs : list (string * string)) (kids : list node).
#[local] Set Elimination Schemes.

Definition is_tag (t : string) (n : node) : bool :=
  match n with
  | Elem t' _ _ => String.eqb t' t
  | Text _ => false
  end.

Definition children (n : node) : list node :=
  match n with
  | Elem _ _ kids => kids
  | Text _ => []
  end.

Fixpoint assoc (k : string) (kvs : list (string * string)) : option string :=
  match kvs with
  | (k', v) :: rest => if String.eqb k' k then Some v else assoc k rest
  | [] => None
  end.

(** [n.get('class')] *)
Definition get_class (n : node) : option string :=
  match n with
  | Elem _ attrs _ => assoc "class" attrs
  | Text _ => None
  end.

(** [@class] as a predicate: the attribute is present. *)
Definition has_class (n : node) : bool :=
  match get_class n with Some _ => true | None => false end.

(** [@class='c'] *)
Definition class_is (c : string) (n : node) : bool :=
  match get_class n with Some c' => String.eqb c' c | None => false end.

(** [n.text_content()]: the text nodes below [n], in document order. *)
Fixpoint text_content (n : node) : string :=
  match n with
  | Text s => s
  | Elem _ _ kids =>
      (fix all (ks : list node) : string :=
         match ks with
         | k :: ks' => text_content k +:+ all ks'
         | [] => EmptyString
         end) kids
  end.

(** A node with what the XPath axes of the source need: its ancestors
    (nearest first) and its preceding and following siblings. *)
Record loc := Loc {
  up : list node;
  before : list node;
  here : node;
  after : list node
}.

(** The proper descendants of [n] in document order. *)
Fixpoint locs (anc : list node) (n : node) {struct n} : list loc :=
  match n with
  | Text _ => []
  | Elem _ _ kids =>
      (fix walk (prev ks : list node) {struct ks} : list loc :=
         match ks with
         | k :: ks' =>
             Loc (n :: anc) prev k ks' :: locs (n :: anc) k ++ walk (prev ++ [k]) ks'
         | [] => []
         end) [] kids
  end.

(** [.//x] selects among [below n]; [//x] among [everywhere root]. *)
Definition below (n : node) : list loc := locs [] n.
Definition everywhere (root : node) : list loc := Loc [] [] root [] :: locs [] root.

(** A value put between apostrophes in an XPath expression stays inside
    the literal only if it holds no apostrophe. *)
Definition literal_ok (s : string) : bool := negb (contains "'" s).

(** [td[@class and following-sibling::td[@class='F']]] *)
Definition marker_with_name (name_class : string) (l : loc) : bool :=
  is_tag "td" (here l) && has_class (here l) &&
  existsb (fun s => is_tag "td" s && class_is name_class s) (after l).

(** [//table[.//td[@class and following-sibling::td[@class='F']]]] *)
Definition xp_definition_tables (name_class : string) (root : node) : list node :=
  filter (fun t => is_tag "table" t && existsb (marker_with_name name_class) (below t))
         (map here (everywhere root)).

(** [.//tr] *)
Definition xp_rows (table : node) : list node :=
  filter (is_tag "tr") (map here (below table)).

(** [./td] *)
Definition xp_cells (row : node) : list node := filter (is_tag "td") (children row).

(** [./tbody/tr] *)
Definition xp_body_rows (table : node) : list node :=
  flat_map (fun b => filter (is_tag "tr") (children b))
           (filter (is_tag "tbody") (children table)).

(** [text()='t']: some text node child is exactly [t]. *)
Definition has_text (t : string) (n : node) : bool :=
  existsb (fun k => match k with Text s => String.eqb s t | Elem _ _ _ => false end)
          (children n).

(** [//h4[text()='t']] *)
Definition xp_h4 (t : string) (root : node) : list loc :=
  filter (fun l => is_tag "h4" (here l) && has_text t (here l)) (everywhere root).

(** [./following-sibling::table[cond][1]] *)
Definition xp_next_table (cond : node -> bool) (h : loc) : list node :=
  match filter (fun s => is_tag "table" s && cond s) (after h) with
  | t :: _ => [t]
  | [] => []
  end.

(** [td[sel]/following-sibling::td[@class='F']] as a test on the name cell. *)
Definition name_after (sel : node -> bool) (name_class : string) (l : loc) : bool :=
  is_tag "td" (here l) && class_is name_class (here l) &&
  existsb (fun p => is_tag "td" p && sel p) (before l).

(** [.//td[@class]/following-sibling::td[@class='F']] *)
Definition xp_names_after_any (name_class : string) (scope : node) : list node :=
  map here (filter (name_after has_class name_class) (below scope)).

(** [.//td[@class='m']/following-sibling::td[@class='F']]; [None] when
    [m] does not stay inside its literal. *)
Definition xp_names_after (m name_class : string) (scope : node) : option (list node) :=
  if literal_ok m
  then Some (map here (filter (name_after (class_is m) name_class) (below scope)))
  else None.

(** [(//td[@class='m'])[1]] *)
Definition xp_first_marked (m : string) (root : node) : option (list loc) :=
  if literal_ok m
  then Some (match filter (fun l => is_tag "td" (here l) && class_is m (here l))
                          (everywhere root) with
             | l :: _ => [l]
             | [] => []
             end)
  else None.

(** [./ancestor::table[1]] *)
Definition xp_enclosing_table (l : loc) : list node :=
  match filter (is_tag "table") (up l) with
  | t :: _ => [t]
  | [] => []
  end.

(** XPath white space. *)
Definition xp_isspace (c : ascii) : bool :=
  (code c =? 32)%nat || (code c =? 9)%nat || (code c =? 10)%nat || (code c =? 13)%nat.

(** [normalize-space(s)]: [pending] says that white space was skipped
    since the last character kept. *)
Fixpoint collapse (pending : bool) (s : string) : string :=
  match s with
  | String c r =>
      if xp_isspace c then collapse true r
      else if pending then String " " (String c (collapse false r))
      else String c (collapse false r)
  | EmptyString => EmptyString
  end.
Definition normalize_space (s : string) : string :=
  collapse false (lstrip_by xp_isspace s).

(** [contains(concat(' ', normalize-space(@class), ' '), ' cls ')] *)
Definition class_has_token (cls : string) (n : node) : bool :=
  let attr := match get_class n with Some c => c | None => EmptyString end in
  contains (" " +:+ cls +:+ " ") (" " +:+ normalize_space attr +:+ " ").

End Html.


(** ** The engine: class [Mappings] *)
Module Engine.
Import PyStr Html.

Inductive MappingsType := MOJANG | YARN | INTERMEDIARY | SEARGE.

#[global] Instance MappingsType_eq_dec : EqDecision MappingsType.
Proof. solve_decision. Defined.

Definition MappingsType_code (t : MappingsType) : nat :=
  match t with MOJANG => 0 | YARN => 1 | INTERMEDIARY => 2 | SEARGE => 3 end.

Definition MappingsType_of_code (n : nat) : option MappingsType :=
  match n with
  | 0 => Some MOJANG | 1 => Some YARN | 2 => Some INTERMEDIARY | 3 => Some SEARGE
  | _ => None
  end.

#[global] Instance MappingsType_countable : Countable MappingsType.
Proof.
  apply (inj_countable MappingsType_code MappingsType_of_code).
  intros []; reflexivity.
Defined.

(** Why the minor version could not be read (the two exceptions the
    constructor catches). *)
Inductive version_error := IndexError | ValueError_int.

(** The [ValueError]s of [fetch], by message. *)
Inductive fetch_error :=
| NoObfuscatedMarker
| NoMarkerForType (requested : MappingsType)
| TableNotRefound
| NoObfuscatedName (obf_marker : string)
| NoMappingName (requested : MappingsType) (marker : string).

(** What [requests.get], [raise_for_status] and [html.fromstring] raise. *)
Inductive page_error := HTTPError (status : nat) | RequestException | ParserError.

Inductive exn :=
| InvalidMappingTypeError (version : string) (mapping_type : MappingsType)
| ValueError (e : fetch_error)
| PageError (e : page_error)
(** [table[]]: the expression built from no class token is not XPath. *)
| XPathEvalError
(** A marker with an apostrophe ends the literal it is written into;
    what lxml makes of the rest is not modelled. *)
| XPathLiteralBroken (value : string).

(** The marker slots [_detect_selectors] prints a message for. *)
Inductive slot := ObfuscatedSlot | TypeSlot (t : MappingsType).

#[global] Instance slot_eq_dec : EqDecision slot.
Proof. solve_decision. Defined.

(** What the code prints, and the request it sends. *)
Inductive event :=
| WarnVersion (version : string) (e : version_error)
| HttpGet (url : string)
| AttemptDetect
| WarnNoDefinitionTable
| Detected (s : slot) (marker_class class_name_text : string)
| DetectedTableClass (via_method_summary : bool) (table_class : string)
| DetectionFinished
| WarnNoTableClass
| WarnNoObfuscatedMemberMarker
| WarnNoRequestedMemberMarker (requested : MappingsType).

(** [self.detected_selectors] *)
Record selectors := Selectors {
  class_name_markers : gmap MappingsType string;
  obfuscated_class_marker : option string;
  searge_class_marker : option string;
  field_method_table_class : option string;
  name_container_cell_class : string
}.

(** The instance attributes of [Mappings]. *)
Record Mappings := Build {
  version : string;
  mapping_type_requested : MappingsType;
  field_mappings : gmap string string;
  method_mappings : gmap string string;
  mapping_class_name : option string;
  obfuscated_class_name : option string;
  detected_selectors : selectors
}.

(** The dictionary [get] returns. *)
Record MappingResult := Result {
  class_name : option string;
  result_obfuscated_class_name : option string;
  fields : gmap string string;
  methods : gmap string string
}.

Definition POTENTIAL_NAME_CELL_CLASS : string := "F".

(** Python truth of [None] or a string. *)
Definition truthy (o : option string) : bool :=
  match o with
  | Some s => negb (String.eqb s "")
  | None => false
  end.

(** [a or b] *)
Definition py_or (a b : option string) : option string := if truthy a then a else b.

(** *** [__init__] *)

(** [int(version.split('.')[1])] with the two exceptions it may raise. *)
Definition minor_version (version : string) : version_error + Z :=
  match split "." version with
  | _ :: minor_version_str :: _ =>
      match py_int minor_version_str with
      | Some n => inr n
      | None => inl ValueError_int
      end
  | _ => inl IndexError
  end.

Definition initial_selectors : selectors :=
  Selectors ∅ None None None POTENTIAL_NAME_CELL_CLASS.

Definition initial (version : string) (mapping_type : MappingsType) : Mappings :=
  Build version mapping_type ∅ ∅ None None initial_selectors.

Definition __init__ (version : string) (mapping_type : MappingsType)
  : (exn + Mappings) * list event :=
  match minor_version version with
  | inr minor =>
      if (minor <? 15)%Z && negb (bool_decide (mapping_type = SEARGE))
      then (inl (InvalidMappingTypeError version mapping_type), [])
      else (inr (initial version mapping_type), [])
  | inl e => (inr (initial version mapping_type), [WarnVersion version e])
  end.

(** *** The state, error and output monad of the methods *)

Definition M (A : Type) : Type := Mappings → (exn + A) * Mappings * list event.

Definition ret {A} (a : A) : M A := λ self, (inr a, self, []).
Definition raise {A} (e : exn) : M A := λ self, (inl e, self, []).
Definition bind {A B} (m : M A) (k : A → M B) : M B := λ self,
  match m self with
  | (inl e, self1, out) => (inl e, self1, out)
  | (inr a, self1, out) =>
      match k a self1 with
      | (r, self2, out2) => (r, self2, out ++ out2)
      end
  end.

#[global] Instance M_ret : MRet M := @ret.
#[global] Instance M_bind : MBind M := λ A B k m, bind m k.

Definition print (e : event) : M unit := λ self, (inr tt, self, [e]).
Definition read : M Mappings := λ self, (inr self, self, []).
Definition write (self' : Mappings) : M unit := λ _, (inr tt, self', []).

(** *** Assignments to the attributes *)

Definition set_obfuscated_class_marker (m : string) (d : selectors) : selectors :=
  Selectors (class_name_markers d) (Some m) (searge_class_marker d)
            (field_method_table_class d) (name_container_cell_class d).

Definition set_class_name_marker (t : MappingsType) (m : string) (d : selectors)
  : selectors :=
  Selectors (<[t := m]> (class_name_markers d)) (obfuscated_class_marker d)
            (searge_class_marker d) (field_method_table_class d)
            (name_container_cell_class d).

Definition set_searge_class_marker (m : string) (d : selectors) : selectors :=
  Selectors (class_name_markers d) (obfuscated_class_marker d) (Some m)
            (field_method_table_class d) (name_container_cell_class d).

Definition set_field_method_table_class (c : string) (d : selectors) : selectors :=
  Selectors (class_name_markers d) (obfuscated_class_marker d) (searge_class_marker d)
            (Some c) (name_container_cell_class d).

Definition set_detected_selectors (d : selectors) (self : Mappings) : Mappings :=
  Build (version self) (mapping_type_requested self) (field_mappings self)
        (method_mappings self) (mapping_class_name self) (obfuscated_class_name self) d.

Definition set_obfuscated_class_name (n : string) (self : Mappings) : Mappings :=
  Build (version self) (mapping_type_requested self) (field_mappings self)
        (method_mappings self) (mapping_class_name self) (Some n)
        (detected_selectors self).

Definition set_mapping_class_name (n : string) (self : Mappings) : Mappings :=
  Build (version self) (mapping_type_requested self) (field_mappings self)
        (method_mappings self) (Some n) (obfuscated_class_name self)
        (detected_selectors self).

(** The dictionary of [self] handed to [_process_member_table]. *)
Inductive member_dict := FieldMappings | MethodMappings.

Definition get_dict (which : member_dict) (self : Mappings) : gmap string string :=
  match which with
  | FieldMappings => field_mappings self
  | MethodMappings => method_mappings self
  end.

Definition set_dict (which : member_dict) (m : gmap string string) (self : Mappings)
  : Mappings :=
  match which with
  | FieldMappings =>
      Build (version self) (mapping_type_requested self) m (method_mappings self)
            (mapping_class_name self) (obfuscated_class_name self)
            (detected_selectors self)
  | MethodMappings =>
      Build (version self) (mapping_type_requested self) (field_mappings self) m
            (mapping_class_name self) (obfuscated_class_name self)
            (detected_selectors self)
  end.

(** *** [_detect_selectors] *)

(** The marker class and the trimmed name of a row the loop does not
    skip: two cells, a marker class that is not empty, the name cell of
    class [F], a name that is not empty. *)
Definition row_sample (row : node) : option (string * string) :=
  match xp_cells row with
  | [marker_cell; name_cell] =>
      let marker_class := get_class marker_cell in
      if negb (truthy marker_class) || negb (class_is POTENTIAL_NAME_CELL_CLASS name_cell)
      then None
      else
        let class_name_text := strip (text_content name_cell) in
        if String.eqb class_name_text "" then None
        else match marker_class with
             | Some m => Some (m, class_name_text)
             | None => None
             end
  | _ => None
  end.

(** The branches of the loop body, by the tests on the name. *)
Inductive name_kind := ObfuscatedName | YarnName | IntermediaryName | PlainName.

#[global] Instance name_kind_eq_dec : EqDecision name_kind.
Proof. solve_decision. Defined.

(** [len(t) <= 4 and re.match(r'^[a-zA-Z]{1,4}$', t)] *)
Definition looks_obfuscated (t : string) : bool :=
  (String.length t <=? 4)%nat && re_letters_1_4 t.

Definition name_kind_of (class_name_text : string) : option name_kind :=
  if looks_obfuscated class_name_text then Some ObfuscatedName
  else if startswith "net.minecraft." class_name_text
          || startswith "com.mojang." class_name_text then
    if contains "Client" class_name_text || contains "Impl" class_name_text
    then Some YarnName
    else if contains "class_" class_name_text then Some IntermediaryName
    else Some PlainName
  else None.

(** The loop state: the selectors of [self] and the local set
    [found_types_for_class_names]. *)
Definition detect_state : Type := selectors * gset MappingsType.

Definition detect_row (row : node) (st : detect_state) : detect_state * list event :=
  let '(d, found) := st in
  match row_sample row with
  | None => (st, [])
  | Some (marker_class, class_name_text) =>
      match name_kind_of class_name_text with
      | Some ObfuscatedName =>
          if bool_decide (SEARGE ∈ found) then (st, [])
          else ((set_obfuscated_class_marker marker_class d, {[SEARGE]} ∪ found),
                [Detected ObfuscatedSlot marker_class class_name_text])
      | Some YarnName =>
          if bool_decide (YARN ∈ found) then (st, [])
          else ((set_class_name_marker YARN marker_class d, {[YARN]} ∪ found),
                [Detected (TypeSlot YARN) marker_class class_name_text])
      | Some IntermediaryName =>
          if bool_decide (INTERMEDIARY ∈ found) then (st, [])
          else ((set_class_name_marker INTERMEDIARY marker_class d,
                 {[INTERMEDIARY]} ∪ found),
                [Detected (TypeSlot INTERMEDIARY) marker_class class_name_text])
      | Some PlainName =>
          if bool_decide (MOJANG ∈ found) then
            match searge_class_marker d with
            | None =>
                ((set_class_name_marker SEARGE marker_class
                    (set_searge_class_marker marker_class d), found),
                 [Detected (TypeSlot SEARGE) marker_class class_name_text])
            | Some _ => (st, [])
            end
          else ((set_class_name_marker MOJANG marker_class d, {[MOJANG]} ∪ found),
                [Detected (TypeSlot MOJANG) marker_class class_name_text])
      | None => (st, [])
      end
  end.

Fixpoint detect_rows (rows : list node) (st : detect_state) : detect_state * list event :=
  match rows with
  | [] => (st, [])
  | row :: rest =>
      let '(st1, out1) := detect_row row st in
      let '(st2, out2) := detect_rows rest st1 in
      (st2, out1 ++ out2)
  end.

(** The class of the first table after the first heading [heading], when
    there is one and it is not empty. *)
Definition summary_table_class (heading : string) (tree : node) : option string :=
  match xp_h4 heading tree with
  | h :: _ =>
      match xp_next_table (λ _, true) h with
      | t :: _ => if truthy (get_class t) then get_class t else None
      | [] => None
      end
  | [] => None
  end.

Definition detect_table_class (tree : node) (d : selectors) : selectors * list event :=
  match summary_table_class "Field summary" tree with
  | Some c => (set_field_method_table_class c d, [DetectedTableClass false c])
  | None =>
      match summary_table_class "Method summary" tree with
      | Some c => (set_field_method_table_class c d, [DetectedTableClass true c])
      | None => (d, [])
      end
  end.

Definition detect (tree : node) (d : selectors) : selectors * list event :=
  match xp_definition_tables POTENTIAL_NAME_CELL_CLASS tree with
  | [] => (d, [AttemptDetect; WarnNoDefinitionTable])
  | class_def_table :: _ =>
      let '((d1, _), out1) := detect_rows (xp_rows class_def_table) (d, ∅) in
      let '(d2, out2) := detect_table_class tree d1 in
      (d2, [AttemptDetect] ++ out1 ++ out2 ++ [DetectionFinished])
  end.

Definition _detect_selectors (tree : node) : M unit := λ self,
  let '(d, out) := detect tree (detected_selectors self) in
  (inr tt, set_detected_selectors d self, out).

(** *** [_process_member_table] *)

(** [if '(' in name: name = name.split('(')[0]] *)
Definition strip_paren (name : string) : string :=
  if contains "(" name then hd EmptyString (split "(" name) else name.

(** The name the member walk reads from a name cell. *)
Definition member_name (name_element : node) : string :=
  strip_paren (strip (text_content name_element)).

(** One turn of the inner loop of the Searge branch: [names] holds
    [searge_name] and [obfuscated_name]. *)
Definition searge_pick (names : option string * option string) (name_element : node)
  : option string * option string :=
  let name_text := member_name name_element in
  if re_searge_member name_text then (Some name_text, snd names)
  else if looks_obfuscated name_text then (fst names, Some name_text)
  else names.

Definition searge_scan (all_name_elements : list node) : option string * option string :=
  fold_left searge_pick all_name_elements (None, None).

(** The marker [_process_member_table] uses for the requested type. *)
Definition requested_member_marker (self : Mappings) : option string :=
  let d := detected_selectors self in
  match mapping_type_requested self with
  | SEARGE =>
      if truthy (searge_class_marker d) then searge_class_marker d
      else obfuscated_class_marker d
  | t => class_name_markers d !! t
  end.

(** The loop body for one row of the table. *)
Definition member_row (requested : MappingsType) (requested_marker obf_marker : string)
    (row : node) (mapping_dict : gmap string string) : exn + gmap string string :=
  match xp_cells row with
  | _ :: name_container_td :: _ =>
      match requested with
      | SEARGE =>
          match searge_scan (xp_names_after_any POTENTIAL_NAME_CELL_CLASS name_container_td) with
          | (Some searge_name, Some obfuscated_name) =>
              if truthy (Some searge_name) && truthy (Some obfuscated_name)
              then inr (<[searge_name := obfuscated_name]> mapping_dict)
              else inr mapping_dict
          | _ => inr mapping_dict
          end
      | _ =>
          match xp_names_after requested_marker POTENTIAL_NAME_CELL_CLASS name_container_td with
          | None => inl (XPathLiteralBroken requested_marker)
          | Some mapped_name_elements =>
              match xp_names_after obf_marker POTENTIAL_NAME_CELL_CLASS name_container_td with
              | None => inl (XPathLiteralBroken obf_marker)
              | Some obfuscated_name_elements =>
                  match mapped_name_elements, obfuscated_name_elements with
                  | m :: _, o :: _ => inr (<[member_name m := member_name o]> mapping_dict)
                  | _, _ => inr mapping_dict
                  end
              end
          end
      end
  | _ => inr mapping_dict
  end.

(** The loop over the rows: the dictionary as the loop leaves it, and the
    exception that ended it, if any. *)
Fixpoint member_rows (requested : MappingsType) (requested_marker obf_marker : string)
    (rows : list node) (mapping_dict : gmap string string)
  : option exn * gmap string string :=
  match rows with
  | [] => (None, mapping_dict)
  | row :: rest =>
      match member_row requested requested_marker obf_marker row mapping_dict with
      | inl e => (Some e, mapping_dict)
      | inr mapping_dict' =>
          member_rows requested requested_marker obf_marker rest mapping_dict'
      end
  end.

Definition _process_member_table (table_element : node) (which : member_dict) : M unit :=
  λ self,
  let obf_member_marker := obfuscated_class_marker (detected_selectors self) in
  let requested_type_member_marker := requested_member_marker self in
  match obf_member_marker, requested_type_member_marker with
  | Some obf, Some req =>
      if negb (truthy (Some obf)) then (inr tt, self, [WarnNoObfuscatedMemberMarker])
      else if negb (truthy (Some req))
      then (inr tt, self, [WarnNoRequestedMemberMarker (mapping_type_requested self)])
      else
        match member_rows (mapping_type_requested self) req obf
                          (xp_body_rows table_element) (get_dict which self) with
        | (Some e, m) => (inl e, set_dict which m self, [])
        | (None, m) => (inr tt, set_dict which m self, [])
        end
  | None, _ => (inr tt, self, [WarnNoObfuscatedMemberMarker])
  | Some obf, None =>
      if negb (truthy (Some obf)) then (inr tt, self, [WarnNoObfuscatedMemberMarker])
      else (inr tt, self, [WarnNoRequestedMemberMarker (mapping_type_requested self)])
  end.

(** *** [get] *)

Definition get : M MappingResult := λ self,
  (inr (Result (mapping_class_name self) (obfuscated_class_name self)
               (field_mappings self) (method_mappings self)),
   self, []).

(** *** [fetch] *)

Definition url_of (version class_path : string) : string :=
  "https://mappings.dev/" +:+ version +:+ "/" +:+ replace "." "/" class_path +:+ ".html".

(** [requests.get(url)], [raise_for_status()] and [html.fromstring]: the
    site [net] answers with the parsed page or with what was raised. *)
Definition load_page (net : string → page_error + node) (url : string) : M node :=
  λ self,
  match net url with
  | inr tree => (inr tree, self, [HttpGet url])
  | inl e => (inl (PageError e), self, [HttpGet url])
  end.

(** The marker [fetch] uses for the class name of the requested type. *)
Definition requested_class_marker (self : Mappings) : option string :=
  let d := detected_selectors self in
  match mapping_type_requested self with
  | SEARGE => py_or (searge_class_marker d) (class_name_markers d !! MOJANG)
  | t => class_name_markers d !! t
  end.

(** "Get the appropriate markers": the two markers, or the [ValueError]
    for the one that detection left without a value. *)
Definition resolve_markers (self : Mappings) : exn + string * string :=
  match obfuscated_class_marker (detected_selectors self) with
  | Some obf_marker =>
      if negb (truthy (Some obf_marker)) then inl (ValueError NoObfuscatedMarker)
      else
        match requested_class_marker self with
        | Some requested_type_marker_class =>
            if negb (truthy (Some requested_type_marker_class))
            then inl (ValueError (NoMarkerForType (mapping_type_requested self)))
            else inr (obf_marker, requested_type_marker_class)
        | None => inl (ValueError (NoMarkerForType (mapping_type_requested self)))
        end
  | None => inl (ValueError NoObfuscatedMarker)
  end.

(** [xs[0]] under [try ... except IndexError: raise ValueError(...)], for
    an XPath query that interpolates [value]. *)
Definition first_or_raise {A} (value : string) (query : option (list A)) (e : fetch_error)
  : exn + A :=
  match query with
  | None => inl (XPathLiteralBroken value)
  | Some (x :: _) => inr x
  | Some [] => inl (ValueError e)
  end.

(** "Extract class names": the first part of [fetch] after detection. *)
Definition class_names (tree : node) : M unit := λ self,
  match resolve_markers self with
  | inl e => (inl e, self, [])
  | inr (obf_marker, requested_type_marker_class) =>
      match first_or_raise obf_marker (xp_first_marked obf_marker tree) TableNotRefound with
      | inl e => (inl e, self, [])
      | inr obf_class_marker_td =>
      match first_or_raise obf_marker (Some (xp_enclosing_table obf_class_marker_td))
                           TableNotRefound with
      | inl e => (inl e, self, [])
      | inr class_name_definition_table =>
      match first_or_raise obf_marker
              (xp_names_after obf_marker POTENTIAL_NAME_CELL_CLASS
                              class_name_definition_table)
              (NoObfuscatedName obf_marker) with
      | inl e => (inl e, self, [])
      | inr obfuscated_class_element =>
      let self1 :=
        set_obfuscated_class_name (strip (text_content obfuscated_class_element)) self in
      match first_or_raise requested_type_marker_class
              (xp_names_after requested_type_marker_class POTENTIAL_NAME_CELL_CLASS
                              class_name_definition_table)
              (NoMappingName (mapping_type_requested self) requested_type_marker_class) with
      | inl e => (inl e, self1, [])
      | inr mapping_class_element =>
          (inr tt,
           set_mapping_class_name (strip (text_content mapping_class_element)) self1, [])
      end end end end
  end.

(** The predicate of [table[...]] built from the class tokens. *)
Definition member_table_selector (fm_table_classes_str : string) : exn + (node → bool) :=
  let tokens :=
    map strip (filter (λ cls, negb (String.eqb (strip cls) ""))
                      (split_ws fm_table_classes_str)) in
  match tokens with
  | [] => inl XPathEvalError
  | _ =>
      match filter (λ cls, negb (literal_ok cls)) tokens with
      | bad :: _ => inl (XPathLiteralBroken bad)
      | [] => inr (λ n, forallb (λ cls, class_has_token cls n) tokens)
      end
  end.

(** The table after the first heading [heading], walked into [which]. *)
Definition process_summary (tree : node) (heading : string)
    (selector : exn + (node → bool)) (which : member_dict) : M unit :=
  match xp_h4 heading tree with
  | h :: _ =>
      match selector with
      | inl e => raise e
      | inr cond =>
          match xp_next_table cond h with
          | table :: _ => _process_member_table table which
          | [] => ret tt
          end
      end
  | [] => ret tt
  end.

(** "Process field and method tables": the second part of [fetch]. *)
Definition members (tree : node) : M unit := λ self,
  let fm_table_classes_str := field_method_table_class (detected_selectors self) in
  if negb (truthy fm_table_classes_str) then (inr tt, self, [WarnNoTableClass])
  else
    let selector :=
      member_table_selector (default EmptyString fm_table_classes_str) in
    bind (process_summary tree "Field summary" selector FieldMappings)
         (λ _, process_summary tree "Method summary" selector MethodMappings) self.

Definition fetch (net : string → page_error + node) (class_path : string)
  : M MappingResult :=
  self ← read;
  tree ← load_page net (url_of (version self) class_path);
  _ ← _detect_selectors tree;
  _ ← class_names tree;
  _ ← members tree;
  get.

End Engine.

(** ** Sample pages *)
Module Pages.
Import PyStr Html Engine.

Definition td (cls : string) (kids : list node) : node := Elem "td" [("class", cls)] kids.

(** A row of the class definition table: marker cell, then name cell. *)
Definition def_row (marker name : string) : node :=
  Elem "tr" [] [td marker []; td "F" [Text name]].

(** A row of a summary table: a first cell, then the cell that holds one
    marker and name pair per naming scheme. *)
Definition member_row_of (pairs : list (string * string)) : node :=
  Elem "tr" []
    [Elem "td" [] [Text "int"];
     Elem "td" [] [Elem "table" [] (map (λ p, def_row (fst p) (snd p)) pairs)]].

Definition summary (heading table_class : string) (rows : list node) : list node :=
  [Elem "h4" [] [Text heading];
   Elem "table" [("class", table_class)] [Elem "tbody" [] rows]].

Definition page (definition_rows : list node) (rest : list node) : node :=
  Elem "html" [] [Elem "body" [] (Elem "table" [] definition_rows :: rest)].

(** The scenario of the specification: a Mojang name and an obfuscated name. *)
Definition page_minecraft : node :=
  page [def_row "A" "net.minecraft.client.Minecraft"; def_row "B" "aq"] [].

(** A page without any table. *)
Definition page_bare : node := Elem "html" [] [Elem "body" [] [Elem "p" [] [Text "moved"]]].

(** A class with the same dotted name under two markers, and one field. *)
Definition page_entity : node :=
  page [def_row "o1" "ab";
        def_row "m1" "net.minecraft.world.entity.Entity";
        def_row "s1" "net.minecraft.world.entity.Entity"]
       (summary "Field summary" "t1"
          [member_row_of [("m1", "level"); ("s1", "field_1234_a"); ("o1", "bd")]]).

(** Another class, whose page uses other marker tokens. *)
Definition page_aabb : node :=
  page [def_row "o2" "cd";
        def_row "m2" "net.minecraft.world.phys.AABB";
        def_row "s2" "net.minecraft.world.phys.AABB"]
       (summary "Method summary" "t2"
          [member_row_of [("m2", "getBoundingBox(Lnet/minecraft/...)");
                          ("s2", "func_72_b(I)"); ("o2", "e(I)")]]).

(** The site: the two class pages, and 404 for every other address. *)
Definition site (url : string) : page_error + node :=
  if String.eqb url "https://mappings.dev/1.20.1/net/minecraft/world/entity/Entity.html"
  then inr page_entity
  else if String.eqb url "https://mappings.dev/1.20.1/net/minecraft/world/phys/AABB.html"
  then inr page_aabb
  else if String.eqb url "https://mappings.dev/1.20.1/net/minecraft/client/Minecraft.html"
  then inr page_minecraft
  else if String.eqb url "https://mappings.dev/1.20.1/gone.html"
  then inr page_bare
  else inl (HTTPError 404).

(** The member row of the scenario: a flat token and a short name. *)
Definition row_field_1234 : node :=
  member_row_of [("s1", "field_1234_a"); ("o1", "bd")].

End Pages.

(** ** Notions used to state the properties *)
Module Views.
Import PyStr Html Engine.

(** What a marker slot holds. *)
Definition slot_value (s : slot) (d : selectors) : option string :=
  match s with
  | ObfuscatedSlot => obfuscated_class_marker d
  | TypeSlot t => class_name_markers d !! t
  end.

(** Slot [s] holds [m]; for Searge the separate slot holds it too. *)
Definition slot_holds (s : slot) (d : selectors) (m : string) : Prop :=
  slot_value s d = Some m ∧ (s = TypeSlot SEARGE → searge_class_marker d = Some m).

Definition recorded_by (s : slot) (e : event) : option string :=
  match e with
  | Detected s' m _ => if decide (s' = s) then Some m else None
  | _ => None
  end.

(** The markers a detection pass reported as recorded for slot [s]. *)
Definition recorded (s : slot) (out : list event) : list string := omap (recorded_by s) out.

(** The guard that keeps slot [s] from being written again in a pass. *)
Definition frozen (s : slot) (st : detect_state) : Prop :=
  match s with
  | ObfuscatedSlot => SEARGE ∈ st.2
  | TypeSlot SEARGE => searge_class_marker st.1 ≠ None
  | TypeSlot t => t ∈ st.2
  end.

(** The marker and the kind of a row the loop does not skip. *)
Definition row_kind (row : node) : option (string * name_kind) :=
  match row_sample row with
  | Some (m, t) =>
      match name_kind_of t with
      | Some k => Some (m, k)
      | None => None
      end
  | None => None
  end.

(** The markers of the rows of kind [k], in table order. *)
Definition markers_of (k : name_kind) (rows : list node) : list string :=
  omap (λ r, match row_kind r with
             | Some (m, k') => if decide (k' = k) then Some m else None
             | None => None
             end) rows.

(** The entries a walk stores, stored in order into [m]. *)
Definition store_all (ws : list (string * string)) (m : gmap string string)
  : gmap string string :=
  fold_left (λ m kv, <[kv.1 := kv.2]> m) ws m.

(** The value of the last entry for [k] among [ws]. *)
Fixpoint last_write (k : string) (ws : list (string * string)) : option string :=
  match ws with
  | [] => None
  | (k', v) :: ws' =>
      match last_write k ws' with
      | Some v' => Some v'
      | None => if decide (k' = k) then Some v else None
      end
  end.

(** What the specification has a row contribute.  A name is the trimmed
    text of a name cell, cut at its first parenthesis. *)
Definition cut_name (name_element : node) : string :=
  strip_paren (strip (text_content name_element)).

(** Searge: among the names after any marker in the second cell, a flat
    token and a short name, when the row has both (the last of each). *)
Definition searge_entry (row : node) : option (string * string) :=
  match xp_cells row with
  | _ :: scope :: _ =>
      let names := map cut_name (xp_names_after_any POTENTIAL_NAME_CELL_CLASS scope) in
      match last (filter re_searge_member names), last (filter looks_obfuscated names) with
      | Some searge_name, Some obfuscated_name => Some (searge_name, obfuscated_name)
      | _, _ => None
      end
  | _ => None
  end.

(** Every other type: the first name after the requested marker and the
    first name after the obfuscated marker, when the second cell has both. *)
Definition marked_entry (requested_marker obf_marker : string) (row : node)
  : option (string * string) :=
  match xp_cells row with
  | _ :: scope :: _ =>
      match xp_names_after requested_marker POTENTIAL_NAME_CELL_CLASS scope,
            xp_names_after obf_marker POTENTIAL_NAME_CELL_CLASS scope with
      | Some (m :: _), Some (o :: _) => Some (cut_name m, cut_name o)
      | _, _ => None
      end
  | _ => None
  end.

Definition row_entry (t : MappingsType) (requested_marker obf_marker : string) (row : node)
  : option (string * string) :=
  match t with
  | SEARGE => searge_entry row
  | _ => marked_entry requested_marker obf_marker row
  end.

(** No slot holds the empty string. *)
Definition no_empty_marker (d : selectors) : Prop :=
  (∀ s, slot_value s d ≠ Some EmptyString)
  ∧ searge_class_marker d ≠ Some EmptyString
  ∧ field_method_table_class d ≠ Some EmptyString.

(** As long as no summary table class was detected, no member was stored. *)
Definition no_table_no_member (self : Mappings) : Prop :=
  field_method_table_class (detected_selectors self) = None →
  field_mappings self = ∅ ∧ method_mappings self = ∅.

(** The states of an instance: as the constructor returns it, and after
    any call of [fetch], whatever that call returned or raised. *)
Inductive reachable : Mappings → Prop :=
| reachable_init version mapping_type self out :
    __init__ version mapping_type = (inr self, out) → reachable self
| reachable_fetch net class_path self r self' out :
    reachable self → fetch net class_path self = (r, self', out) → reachable self'.

End Views.

(** ** Further notions: requests, first rows, the caller *)
Module Observations.
Import PyStr Html Engine Views.

(** The addresses an output asked for, in order. *)
Definition requests (out : list event) : list string :=
  omap (λ e, match e with HttpGet url => Some url | _ => None end) out.

(** The slot the first row of a kind is recorded in, and the type that
    stands for that kind in [found_types_for_class_names]. *)
Definition kind_slot (k : name_kind) : slot :=
  match k with
  | ObfuscatedName => ObfuscatedSlot
  | YarnName => TypeSlot YARN
  | IntermediaryName => TypeSlot INTERMEDIARY
  | PlainName => TypeSlot MOJANG
  end.

Definition kind_flag (k : name_kind) : MappingsType :=
  match k with
  | ObfuscatedName => SEARGE
  | YarnName => YARN
  | IntermediaryName => INTERMEDIARY
  | PlainName => MOJANG
  end.

(** A row stores nothing under [k], whatever the mapping is. *)
Definition row_keeps (t : MappingsType) (requested_marker obf_marker : string)
    (k : string) (row : node) : Prop :=
  ∀ m : gmap string string,
    ∃ m', member_row t requested_marker obf_marker row m = inr m' ∧ m' !! k = m !! k.

(** Words put together with one blank between them. *)
Fixpoint join_blank (ws : list string) : string :=
  match ws with
  | [] => EmptyString
  | [w] => w
  | w :: ws' => w +:+ String " " (join_blank ws')
  end.

(** Every character Python splits at is white space for XPath too: the
    text has none of the code points 11, 12, 28 to 31, 133 and 160. *)
Definition xpath_spaces_only (s : string) : bool :=
  all_chars (λ c, implb (py_isspace c) (xp_isspace c)) s.

(** A name the loop of [_detect_selectors] does not take for a Mojang
    name: a short name, or one with [Client], [Impl] or [class_] in it. *)
Definition taken_before_mojang (t : string) : bool :=
  looks_obfuscated t || contains "Client" t || contains "Impl" t || contains "class_" t.

(** The page of a class whose Mojang name has [Client] in it. *)
Definition page_client_level : node :=
  Pages.page [Pages.def_row "o1" "ab";
              Pages.def_row "m1" "net.minecraft.client.multiplayer.ClientLevel"] [].

End Observations.

(** ** The caller: the start of [hits.py] *)
Module Hits.
Import PyStr Html Engine.

(** Why the script stopped: [Mappings] raised, or [pjm.get_class] did. *)
Inductive stop := MappingsRaised (e : exn) | GetClassRaised (class_path : string).

(** [X_mappings = mappings.fetch(path); X = pjm.get_class(X_mappings)]:
    [get_class] says whether the binding of [pyjmine], which is not part of
    this repository, accepts the result. *)
Definition fetch_class (net : string → page_error + node)
    (get_class : MappingResult → bool) (class_path : string) (self : Mappings)
  : (stop + MappingResult) * Mappings * list event :=
  match fetch net class_path self with
  | (inl e, self', out) => (inl (MappingsRaised e), self', out)
  | (inr res, self', out) =>
      if get_class res then (inr res, self', out)
      else (inl (GetClassRaised class_path), self', out)
  end.

(** What a dictionary returned by an earlier [fetch] shows later: its two
    names, and the two mappings of the instance, which every result shares
    with the instance. *)
Definition seen_after (res : MappingResult) (self : Mappings) : MappingResult :=
  Result (class_name res) (result_obfuscated_class_name res)
         (field_mappings self) (method_mappings self).

(** Lines 11 to 24: the instance for Mojang names and the three classes,
    with what is printed and requested on the way.  [get_class] receives
    each result as it is when [fetch] returns it; the three results are
    given as they are after line 24. *)
Definition load_classes (version : string) (net : string → page_error + node)
    (get_class : MappingResult → bool)
  : (stop + MappingResult * MappingResult * MappingResult) * list event :=
  match __init__ version MOJANG with
  | (inl e, out0) => (inl (MappingsRaised e), out0)
  | (inr mappings, out0) =>
      match fetch_class net get_class "net.minecraft.client.Minecraft" mappings with
      | (inl e, _, out1) => (inl e, out0 ++ out1)
      | (inr minecraft_mappings, mappings1, out1) =>
      match fetch_class net get_class "net.minecraft.world.entity.Entity" mappings1 with
      | (inl e, _, out2) => (inl e, out0 ++ out1 ++ out2)
      | (inr entity_mappings, mappings2, out2) =>
      match fetch_class net get_class "net.minecraft.world.phys.AABB" mappings2 with
      | (inl e, _, out3) => (inl e, out0 ++ out1 ++ out2 ++ out3)
      | (inr aabb_mappings, mappings3, out3) =>
          (inr (seen_after minecraft_mappings mappings3,
                seen_after entity_mappings mappings3,
                seen_after aabb_mappings mappings3),
           out0 ++ out1 ++ out2 ++ out3)
      end end end
  end.

End Hits.

(** * Properties *)

Import PyStr Html Engine Pages Views Observations Hits.

(** ** The version gate of the constructor *)

Lemma minor_version_inr (version : string) (n : Z) :
  minor_version version = inr n ↔
  ∃ s, split "." version !! 1%nat = Some s ∧ py_int s = Some n.
Proof.
  unfold minor_version.
  destruct (split "." version) as [|a [|b l]]; simpl.
  - split; [discriminate | intros (s & Hs & _); discriminate].
  - split; [discriminate | intros (s & Hs & _); discriminate].
  - destruct (py_int b) as [m|] eqn:Hb; split.
    + intros [= <-]. eauto.
    + intros (s & [= <-] & Hs). congruence.
    + discriminate.
    + intros (s & [= <-] & Hs). congruence.
Qed.

Lemma minor_version_inl (version : string) :
  (∃ e, minor_version version = inl e) ↔
  split "." version !! 1%nat = None ∨
  ∃ s, split "." version !! 1%nat = Some s ∧ py_int s = None.
Proof.
  unfold minor_version.
  destruct (split "." version) as [|a [|b l]]; simpl.
  - split; eauto.
  - split; eauto.
  - destruct (py_int b) as [m|] eqn:Hb; split.
    + intros [e [=]].
    + intros [[=] | (s & [= <-] & Hs)]. congruence.
    + eauto.
    + eauto.
Qed.

(** C1.  When the second dot separated component of [version] is read by
    [int] as a number below 15, the constructor raises
    [InvalidMappingTypeError] for every mapping type but Searge, having
    printed nothing and sent no request; with Searge, or with a minor
    version of 15 or more, it returns the instance; and when the component
    is missing or is not a number it prints the warning and returns the
    instance.  No outcome of the constructor contains a request. *)
Theorem version_gate (version : string) (mapping_type : MappingsType) :
  (∀ s n, split "." version !! 1%nat = Some s → py_int s = Some n → (n < 15)%Z →
          mapping_type ≠ SEARGE →
          __init__ version mapping_type
          = (inl (InvalidMappingTypeError version mapping_type), []))
  ∧ (∀ s n, split "." version !! 1%nat = Some s → py_int s = Some n →
            mapping_type = SEARGE ∨ (15 ≤ n)%Z →
            __init__ version mapping_type = (inr (initial version mapping_type), []))
  ∧ (split "." version !! 1%nat = None ∨
     (∃ s, split "." version !! 1%nat = Some s ∧ py_int s = None) →
     ∃ e, __init__ version mapping_type
          = (inr (initial version mapping_type), [WarnVersion version e]))
  ∧ (∀ url, HttpGet url ∉ (__init__ version mapping_type).2).
Proof.
  repeat split.
  - intros s n Hs Hn Hlt Hne.
    assert (Hm : minor_version version = inr n) by (apply minor_version_inr; eauto).
    unfold __init__. rewrite Hm.
    rewrite (proj2 (Z.ltb_lt n 15) Hlt), bool_decide_eq_false_2 by done. done.
  - intros s n Hs Hn Hor.
    assert (Hm : minor_version version = inr n) by (apply minor_version_inr; eauto).
    unfold __init__. rewrite Hm.
    destruct Hor as [-> | Hge].
    + rewrite bool_decide_eq_true_2 by done. by rewrite andb_false_r.
    + rewrite (proj2 (Z.ltb_ge n 15) Hge). done.
  - intros H. apply minor_version_inl in H as [e He].
    exists e. unfold __init__. by rewrite He.
  - intros url. unfold __init__.
    destruct (minor_version version) as [e|n]; simpl.
    + rewrite list_elem_of_singleton. discriminate.
    + destruct (_ && _); simpl; apply not_elem_of_nil.
Qed.

(** The scenarios of the specification: 1.14.4 is refused for Mojang and
    accepted for Searge, 1.20.1 is accepted, and a version without a
    readable minor part is accepted with a warning. *)
Lemma version_gate_witness :
  __init__ "1.14.4" MOJANG = (inl (InvalidMappingTypeError "1.14.4" MOJANG), [])
  ∧ __init__ "1.14.4" SEARGE = (inr (initial "1.14.4" SEARGE), [])
  ∧ __init__ "1.20.1" SEARGE = (inr (initial "1.20.1" SEARGE), [])
  ∧ (∃ e, __init__ "1.x" YARN = (inr (initial "1.x" YARN), [WarnVersion "1.x" e])).
Proof.
  split; [|split; [|split]].
  - apply (proj1 (version_gate "1.14.4" MOJANG) "14" 14%Z);
      [reflexivity | reflexivity | lia | discriminate].
  - apply (proj1 (proj2 (version_gate "1.14.4" SEARGE)) "14" 14%Z);
      [reflexivity | reflexivity | left; reflexivity].
  - apply (proj1 (proj2 (version_gate "1.20.1" SEARGE)) "20" 20%Z);
      [reflexivity | reflexivity | right; lia].
  - apply (proj1 (proj2 (proj2 (version_gate "1.x" YARN)))).
    right. exists "x". split; reflexivity.
Defined.

(** ** One detection pass *)

Lemma detect_rows_app (rows1 rows2 : list node) (st : detect_state) :
  detect_rows (rows1 ++ rows2) st
  = let '(st1, out1) := detect_rows rows1 st in
    let '(st2, out2) := detect_rows rows2 st1 in
    (st2, out1 ++ out2).
Proof.
  revert st. induction rows1 as [|row rows1 IH]; intros st; simpl.
  - by destruct (detect_rows rows2 st).
  - destruct (detect_row row st) as [st1 out1]. rewrite IH.
    destruct (detect_rows rows1 st1) as [st2 out2].
    destruct (detect_rows rows2 st2) as [st3 out3]. by rewrite app_assoc.
Qed.

Lemma recorded_app (s : slot) (out1 out2 : list event) :
  recorded s (out1 ++ out2) = recorded s out1 ++ recorded s out2.
Proof. apply omap_app. Qed.

(** What one row does to slot [s]: it reports nothing and leaves a frozen
    slot as it is, or the slot was not frozen and the row records one
    marker and freezes it. *)
Lemma detect_row_slot (s : slot) (row : node) (st st' : detect_state) (o : list event) :
  detect_row row st = (st', o) →
  (recorded s o = [] ∧
   (frozen s st → frozen s st' ∧ ∀ m, slot_holds s st.1 m → slot_holds s st'.1 m))
  ∨ (¬ frozen s st ∧ ∃ m, recorded s o = [m] ∧ frozen s st' ∧ slot_holds s st'.1 m).
Proof.
  unfold detect_row. destruct st as [d found].
  destruct (row_sample row) as [[mc t]|]; [|intros [= <- <-]; left; simpl; tauto].
  destruct (name_kind_of t) as [[]|]; repeat case_match; intros [= <- <-];
    try (left; simpl; tauto);
    destruct s as [|[]]; unfold recorded, slot_holds; simpl;
    repeat case_decide; simplify_eq;
    try (left; split; [reflexivity|]; intros Hf; split;
         [first [set_solver | done]
         |intros m [Hm Hs]; split;
           [first [done | by rewrite lookup_insert_ne] | done]]);
    try (right; split; [first [by apply bool_decide_eq_false_1 | simpl; congruence | set_solver]|];
         eexists; split; [reflexivity|]; split; [first [set_solver | done]|];
         split; [first [done | by rewrite lookup_insert_eq] | done]).
Qed.

Lemma detect_rows_frozen (s : slot) (rows : list node) (st st' : detect_state)
    (out : list event) :
  detect_rows rows st = (st', out) → frozen s st →
  recorded s out = [] ∧ frozen s st' ∧ ∀ m, slot_holds s st.1 m → slot_holds s st'.1 m.
Proof.
  revert st st' out. induction rows as [|row rows IH]; intros st st' out; simpl.
  - intros [= <- <-] Hf. done.
  - destruct (detect_row row st) as [st1 o1] eqn:Hrow.
    destruct (detect_rows rows st1) as [st2 o2] eqn:Hrows.
    intros [= <- <-] Hf.
    destruct (detect_row_slot s _ _ _ _ Hrow) as [[Ho1 Hkeep] | [Hnf _]]; [|done].
    destruct (Hkeep Hf) as [Hf1 Hhold1].
    destruct (IH _ _ _ Hrows Hf1) as (Ho2 & Hf2 & Hhold2).
    rewrite recorded_app, Ho1, Ho2. auto.
Qed.

Lemma detect_rows_slot (s : slot) (rows : list node) (st st' : detect_state)
    (out : list event) :
  detect_rows rows st = (st', out) →
  recorded s out = []
  ∨ (¬ frozen s st ∧ ∃ m, recorded s out = [m] ∧ frozen s st' ∧ slot_holds s st'.1 m).
Proof.
  revert st st' out. induction rows as [|row rows IH]; intros st st' out; simpl.
  - intros [= <- <-]. by left.
  - destruct (detect_row row st) as [st1 o1] eqn:Hrow.
    destruct (detect_rows rows st1) as [st2 o2] eqn:Hrows.
    intros [= <- <-]. rewrite recorded_app.
    destruct (detect_row_slot s _ _ _ _ Hrow) as [[Ho1 Hkeep] | (Hnf & m & Ho1 & Hf1 & Hm)].
    + rewrite Ho1. simpl.
      destruct (IH _ _ _ Hrows) as [Ho2 | (Hnf1 & m & Ho2 & Hf2 & Hm)]; [by left|].
      right. split; [|by eauto]. intros Hf. by destruct (Hkeep Hf).
    + destruct (detect_rows_frozen s _ _ _ _ Hrows Hf1) as (Ho2 & Hf2 & Hhold).
      right. split; [done|]. exists m. rewrite Ho1, Ho2. auto.
Qed.

(** C3.  In one detection pass over the rows [earlier ++ later], which
    starts with the empty set of found types, each slot is reported as
    recorded at most once; and once a marker [m] has been recorded for a slot
    by the earlier rows, the later rows record nothing for that slot and
    the slot (for Searge also the separate slot) still holds [m] at the
    end. *)
Theorem first_match_wins (s : slot) (earlier later : list node) (d : selectors) :
  let r1 := detect_rows earlier (d, ∅) in
  let r2 := detect_rows later r1.1 in
  detect_rows (earlier ++ later) (d, ∅) = (r2.1, r1.2 ++ r2.2)
  ∧ (length (recorded s (r1.2 ++ r2.2)) ≤ 1)%nat
  ∧ ∀ m, m ∈ recorded s r1.2 →
         recorded s r1.2 = [m] ∧ recorded s r2.2 = [] ∧ slot_holds s r2.1.1 m.
Proof.
  intros r1 r2. split; [|split].
  - rewrite detect_rows_app. subst r2 r1.
    destruct (detect_rows earlier (d, ∅)) as [st1 o1]. simpl.
    by destruct (detect_rows later st1).
  - assert (Happ : detect_rows (earlier ++ later) (d, ∅) = (r2.1, r1.2 ++ r2.2)).
    { rewrite detect_rows_app. subst r2 r1.
      destruct (detect_rows earlier (d, ∅)) as [st1 o1]. simpl.
      by destruct (detect_rows later st1). }
    destruct (detect_rows_slot s _ _ _ _ Happ) as [-> | (_ & m & -> & _)]; simpl; lia.
  - intros m Hm.
    destruct r1 as [st1 o1] eqn:Hr1. simpl in *.
    destruct r2 as [st2 o2] eqn:Hr2. simpl in *.
    destruct (detect_rows_slot s _ _ _ _ Hr1) as [Hnil | (_ & m' & Ho1 & Hf1 & Hm')].
    + rewrite Hnil in Hm. by apply not_elem_of_nil in Hm.
    + rewrite Ho1 in Hm. apply list_elem_of_singleton in Hm as ->.
      destruct (detect_rows_frozen s _ _ _ _ Hr2 Hf1) as (Ho2 & _ & Hhold). auto.
Qed.

(** Two obfuscated rows: the marker of the first one stays. *)
Lemma first_match_wins_witness :
  "B" ∈ recorded ObfuscatedSlot
          (detect_rows [def_row "A" "net.minecraft.client.Minecraft"; def_row "B" "aq"]
                       (initial_selectors, ∅)).2
  ∧ slot_value ObfuscatedSlot
      (detect_rows [def_row "C" "zz"]
         (detect_rows [def_row "A" "net.minecraft.client.Minecraft"; def_row "B" "aq"]
                      (initial_selectors, ∅)).1).1.1 = Some "B".
Proof.
  assert (H : "B" ∈ recorded ObfuscatedSlot
          (detect_rows [def_row "A" "net.minecraft.client.Minecraft"; def_row "B" "aq"]
                       (initial_selectors, ∅)).2).
  { vm_compute. apply list_elem_of_here. }
  split; [exact H|].
  exact (proj1 (proj2 (proj2 (proj2 (proj2 (first_match_wins ObfuscatedSlot
           [def_row "A" "net.minecraft.client.Minecraft"; def_row "B" "aq"]
           [def_row "C" "zz"] initial_selectors)) "B" H)))).
Defined.

(** ** The parts of [fetch] *)

Lemma fetch_unfold (net : string → page_error + node) (class_path : string)
    (self : Mappings) :
  fetch net class_path self =
  let url := url_of (version self) class_path in
  match net url with
  | inl e => (inl (PageError e), self, [HttpGet url])
  | inr tree =>
      let r := detect tree (detected_selectors self) in
      match class_names tree (set_detected_selectors r.1 self) with
      | (inl e, self2, out2) => (inl e, self2, [HttpGet url] ++ r.2 ++ out2)
      | (inr _, self2, out2) =>
          match members tree self2 with
          | (inl e, self3, out3) => (inl e, self3, [HttpGet url] ++ r.2 ++ out2 ++ out3)
          | (inr _, self3, out3) =>
              (inr (Result (mapping_class_name self3) (obfuscated_class_name self3)
                           (field_mappings self3) (method_mappings self3)),
               self3, [HttpGet url] ++ r.2 ++ out2 ++ out3 ++ [])
          end
      end
  end.
Proof.
  unfold fetch, mbind, M_bind, bind, read, load_page, _detect_selectors, get. simpl.
  destruct (net (url_of (version self) class_path)) as [e|tree]; [done|].
  destruct (detect tree (detected_selectors self)) as [d out1]. simpl.
  destruct (class_names tree (set_detected_selectors d self)) as [[[e|[]] self2] out2];
    [done|].
  destruct (members tree self2) as [[[e|[]] self3] out3]; done.
Qed.

Lemma class_names_frame (tree : node) (self self' : Mappings) r out :
  class_names tree self = (r, self', out) →
  version self' = version self
  ∧ mapping_type_requested self' = mapping_type_requested self
  ∧ detected_selectors self' = detected_selectors self
  ∧ field_mappings self' = field_mappings self
  ∧ method_mappings self' = method_mappings self.
Proof.
  unfold class_names. repeat case_match; intros [= <- <- <-]; done.
Qed.

Lemma process_member_table_frame (table : node) (which : member_dict)
    (self self' : Mappings) r out :
  _process_member_table table which self = (r, self', out) →
  version self' = version self
  ∧ mapping_type_requested self' = mapping_type_requested self
  ∧ detected_selectors self' = detected_selectors self
  ∧ mapping_class_name self' = mapping_class_name self
  ∧ obfuscated_class_name self' = obfuscated_class_name self.
Proof.
  unfold _process_member_table. repeat case_match; intros [= <- <- <-];
    destruct which; done.
Qed.

Lemma process_summary_frame (tree : node) (heading : string) selector
    (which : member_dict) (self self' : Mappings) r out :
  process_summary tree heading selector which self = (r, self', out) →
  version self' = version self
  ∧ mapping_type_requested self' = mapping_type_requested self
  ∧ detected_selectors self' = detected_selectors self
  ∧ mapping_class_name self' = mapping_class_name self
  ∧ obfuscated_class_name self' = obfuscated_class_name self.
Proof.
  unfold process_summary, raise, ret. repeat case_match;
    try (intros [= <- <- <-]; done).
  apply process_member_table_frame.
Qed.

Lemma members_frame (tree : node) (self self' : Mappings) r out :
  members tree self = (r, self', out) →
  version self' = version self
  ∧ mapping_type_requested self' = mapping_type_requested self
  ∧ detected_selectors self' = detected_selectors self
  ∧ mapping_class_name self' = mapping_class_name self
  ∧ obfuscated_class_name self' = obfuscated_class_name self.
Proof.
  unfold members, bind. case_match; [intros [= <- <- <-]; done|].
  destruct (process_summary _ "Field summary" _ _ _) as [[[e|[]] s1] o1] eqn:H1.
  - intros [= <- <- <-]. by apply process_summary_frame in H1.
  - destruct (process_summary _ "Method summary" _ _ _) as [[r2 s2] o2] eqn:H2.
    intros [= <- <- <-].
    apply process_summary_frame in H1 as (?&?&?&?&?).
    apply process_summary_frame in H2 as (?&?&?&?&?).
    repeat split; congruence.
Qed.

(** Without a table class the second part of [fetch] only prints. *)
Lemma members_without_table_class (tree : node) (self : Mappings) :
  truthy (field_method_table_class (detected_selectors self)) = false →
  members tree self = (inr tt, self, [WarnNoTableClass]).
Proof. unfold members. by intros ->. Qed.

(** ** What detection keeps *)

Lemma truthy_Some (m : string) : truthy (Some m) = true ↔ m ≠ EmptyString.
Proof.
  simpl. destruct (String.eqb_spec m ""); simpl; split; congruence.
Qed.

Lemma row_sample_marker (row : node) (m t : string) :
  row_sample row = Some (m, t) → m ≠ EmptyString.
Proof.
  unfold row_sample. repeat case_match; try discriminate.
  intros [= <- <-]. subst. apply truthy_Some.
  match goal with H : negb (truthy _) || _ = false |- _ =>
    apply orb_false_elim in H as [H _]; by apply negb_false_iff in H end.
Qed.

Lemma no_empty_set_marker (t : MappingsType) (m : string) (d : selectors) :
  m ≠ EmptyString → no_empty_marker d → no_empty_marker (set_class_name_marker t m d).
Proof.
  intros Hm (Hs & Hsec & Htab). split; [|done].
  intros [|t']; simpl; [apply (Hs ObfuscatedSlot)|].
  destruct (decide (t = t')) as [->|Hne].
  - rewrite lookup_insert_eq. congruence.
  - rewrite lookup_insert_ne by done. apply (Hs (TypeSlot t')).
Qed.

Lemma detect_row_keeps (row : node) (st st' : detect_state) (o : list event) :
  detect_row row st = (st', o) →
  field_method_table_class st'.1 = field_method_table_class st.1
  ∧ name_container_cell_class st'.1 = name_container_cell_class st.1
  ∧ (no_empty_marker st.1 → no_empty_marker st'.1).
Proof.
  unfold detect_row. destruct st as [d found].
  destruct (row_sample row) as [[m t]|] eqn:Hrow; [|by intros [= <- <-]].
  apply row_sample_marker in Hrow.
  repeat case_match; intros [= <- <-]; simpl; (split; [done|split; [done|]]);
    try done; try (by apply no_empty_set_marker).
  - intros (Hs & Hsec & Htab). split; [|split; [exact Hsec|exact Htab]].
    intros [|t']; simpl; [congruence | apply (Hs (TypeSlot t'))].
  - intros (Hs & Hsec & Htab). apply no_empty_set_marker; [done|].
    split; [exact Hs|split; [simpl; congruence|exact Htab]].
Qed.

Lemma detect_rows_keeps (rows : list node) (st st' : detect_state) (out : list event) :
  detect_rows rows st = (st', out) →
  field_method_table_class st'.1 = field_method_table_class st.1
  ∧ name_container_cell_class st'.1 = name_container_cell_class st.1
  ∧ (no_empty_marker st.1 → no_empty_marker st'.1).
Proof.
  revert st st' out. induction rows as [|row rows IH]; intros st st' out; simpl.
  - by intros [= <- <-].
  - destruct (detect_row row st) as [st1 o1] eqn:Hrow.
    destruct (detect_rows rows st1) as [st2 o2] eqn:Hrows.
    intros [= <- <-].
    apply detect_row_keeps in Hrow as (? & ? & ?).
    apply IH in Hrows as (? & ? & ?).
    split; [congruence|split; [congruence|auto]].
Qed.

Lemma summary_table_class_truthy (heading : string) (tree : node) (c : string) :
  summary_table_class heading tree = Some c → c ≠ EmptyString.
Proof.
  unfold summary_table_class. repeat case_match; try discriminate.
  intros Hc. apply truthy_Some. congruence.
Qed.

Lemma detect_table_class_keeps (tree : node) (d : selectors) :
  let r := detect_table_class tree d in
  (no_empty_marker d → no_empty_marker r.1)
  ∧ (field_method_table_class r.1 = None → field_method_table_class d = None).
Proof.
  unfold detect_table_class.
  destruct (summary_table_class "Field summary" tree) as [c|] eqn:Hf; simpl.
  - apply summary_table_class_truthy in Hf.
    split; [|discriminate]. intros (Hs & Hsec & Htab).
    split; [exact Hs|split; [done|simpl; congruence]].
  - destruct (summary_table_class "Method summary" tree) as [c|] eqn:Hm; simpl; [|done].
    apply summary_table_class_truthy in Hm.
    split; [|discriminate]. intros (Hs & Hsec & Htab).
    split; [exact Hs|split; [done|simpl; congruence]].
Qed.

Lemma detect_keeps (tree : node) (d : selectors) :
  (no_empty_marker d → no_empty_marker (detect tree d).1)
  ∧ (field_method_table_class (detect tree d).1 = None →
     field_method_table_class d = None).
Proof.
  unfold detect. destruct (xp_definition_tables _ tree) as [|t ts]; [done|].
  destruct (detect_rows (xp_rows t) (d, ∅)) as [[d1 found] out1] eqn:Hrows.
  apply detect_rows_keeps in Hrows as (Htab & _ & Hne). simpl in *.
  destruct (detect_table_class_keeps tree d1) as [Hne2 Hnone].
  destruct (detect_table_class tree d1) as [d2 out2]. simpl in *.
  split; [auto|]. intros H. rewrite <- Htab. auto.
Qed.

(** Every state of an instance satisfies the two invariants. *)
Lemma reachable_invariant (self : Mappings) :
  reachable self →
  no_empty_marker (detected_selectors self) ∧ no_table_no_member self.
Proof.
  induction 1 as [version mapping_type self out Hinit
                 |net class_path self r self' out Hreach [IHne IHtab] Hfetch].
  - assert (self = initial version mapping_type) as ->.
    { unfold __init__ in Hinit. repeat case_match; congruence. }
    split; [|done]. split; [|done]. by intros [|t].
  - rewrite fetch_unfold in Hfetch. simpl in Hfetch.
    destruct (net _) as [e|tree]; [by injection Hfetch as <- <- <-|].
    destruct (detect_keeps tree (detected_selectors self)) as [Hne Hnone].
    set (d1 := (detect tree (detected_selectors self)).1) in *.
    destruct (class_names tree _) as [[r2 self2] out2] eqn:Hcn.
    apply class_names_frame in Hcn as (_ & _ & Hsel2 & Hf2 & Hm2). simpl in *.
    assert (Hinv2 : no_empty_marker (detected_selectors self2) ∧ no_table_no_member self2).
    { rewrite Hsel2. split; [auto|]. unfold no_table_no_member.
      rewrite Hsel2, Hf2, Hm2. auto. }
    destruct r2 as [e|[]]; [by injection Hfetch as <- <- <-|].
    destruct (members tree self2) as [[r3 self3] out3] eqn:Hmem.
    assert (no_empty_marker (detected_selectors self3) ∧ no_table_no_member self3).
    { pose proof (members_frame _ _ _ _ _ Hmem) as (_ & _ & Hsel3 & _ & _).
      rewrite Hsel3. split; [apply Hinv2|].
      intros Hnone3. rewrite Hsel3 in Hnone3.
      rewrite members_without_table_class in Hmem by (by rewrite Hnone3).
      injection Hmem as <- <- <-. by apply Hinv2. }
    by destruct r3 as [e|[]]; injection Hfetch as <- <- <-.
Qed.

(** ** The marker of the requested type *)

#[local] Arguments truthy : simpl never.

Lemma detect_selectors_unfold (tree : node) (self : Mappings) :
  _detect_selectors tree self
  = (inr tt, set_detected_selectors (detect tree (detected_selectors self)).1 self,
     (detect tree (detected_selectors self)).2).
Proof. unfold _detect_selectors. by destruct (detect tree _). Qed.


Lemma reachable_initial (version : string) (t : MappingsType) :
  (__init__ version t).1 = inr (initial version t) → reachable (initial version t).
Proof.
  intros H. destruct (__init__ version t) as [r out] eqn:Hinit. simpl in H. subst r.
  exact (reachable_init _ _ _ _ Hinit).
Defined.


(** ** Pages without a summary table *)

Lemma class_names_sets_names (tree : node) (self self' : Mappings) out :
  class_names tree self = (inr tt, self', out) →
  is_Some (mapping_class_name self') ∧ is_Some (obfuscated_class_name self') ∧ out = [].
Proof.
  unfold class_names. repeat case_match; intros [= <- <-]; simpl; eauto.
Qed.

(** As long as the instance holds no table class.  On an instance in any
    state it can be in: when the table class is unset after detection and
    the class names are extracted without an exception, the member tables
    are not walked ([fetch] only prints the warning there) and [fetch]
    returns the two class names with both mappings empty. *)
Lemma degraded_success (net : string → page_error + node) (class_path : string)
    (self : Mappings) (tree : node) :
  reachable self →
  net (url_of (version self) class_path) = inr tree →
  let r1 := _detect_selectors tree self in
  let r2 := class_names tree r1.1.2 in
  field_method_table_class (detected_selectors r1.1.2) = None →
  r2.1.1 = inr tt →
  members tree r2.1.2 = (inr tt, r2.1.2, [WarnNoTableClass])
  ∧ (∃ name obf,
       mapping_class_name r2.1.2 = Some name ∧ obfuscated_class_name r2.1.2 = Some obf
       ∧ fetch net class_path self
         = (inr (Result (Some name) (Some obf) ∅ ∅), r2.1.2,
            [HttpGet (url_of (version self) class_path)] ++ r1.2 ++ [WarnNoTableClass])).
Proof.
  intros Hreach Hnet r1 r2 Hnone Hok. subst r1 r2.
  rewrite detect_selectors_unfold in *. simpl in *.
  apply reachable_invariant in Hreach as [_ Hinv].
  destruct (Hinv (proj2 (detect_keeps tree _) Hnone)) as [Hf Hm].
  set (d := (detect tree (detected_selectors self)).1) in *.
  destruct (class_names tree (set_detected_selectors d self)) as [[r self2] out2] eqn:Hcn.
  simpl in *. subst r.
  pose proof (class_names_frame _ _ _ _ _ Hcn) as (_ & _ & Hsel & Hf2 & Hm2).
  pose proof (class_names_sets_names _ _ _ _ Hcn) as ([name Hname] & [obf Hobf] & ->).
  simpl in *.
  assert (Hmem : members tree self2 = (inr tt, self2, [WarnNoTableClass])).
  { apply members_without_table_class. by rewrite Hsel, Hnone. }
  split; [done|]. exists name, obf. split; [done|split; [done|]].
  rewrite fetch_unfold. simpl. rewrite Hnet. fold d. rewrite Hcn, Hmem.
  by rewrite Hname, Hobf, Hf2, Hm2, Hf, Hm.
Qed.

(** The scenario of the specification on a new instance: the class table
    of [Minecraft] and no summary heading. *)
Lemma degraded_success_on_new_instance :
  ∃ name obf,
    mapping_class_name
      (class_names page_minecraft
         (_detect_selectors page_minecraft (initial "1.20.1" MOJANG)).1.2).1.2 = Some name
    ∧ obfuscated_class_name
        (class_names page_minecraft
           (_detect_selectors page_minecraft (initial "1.20.1" MOJANG)).1.2).1.2 = Some obf
    ∧ fetch site "net.minecraft.client.Minecraft" (initial "1.20.1" MOJANG)
      = (inr (Result (Some name) (Some obf) ∅ ∅),
         (class_names page_minecraft
            (_detect_selectors page_minecraft (initial "1.20.1" MOJANG)).1.2).1.2,
         [HttpGet (url_of "1.20.1" "net.minecraft.client.Minecraft")]
         ++ (_detect_selectors page_minecraft (initial "1.20.1" MOJANG)).2
         ++ [WarnNoTableClass]).
Proof.
  exact (proj2 (degraded_success site "net.minecraft.client.Minecraft"
                  (initial "1.20.1" MOJANG) page_minecraft
                  (reachable_initial "1.20.1" MOJANG eq_refl) eq_refl eq_refl eq_refl)).
Defined.

(** C5 at the input where the code departs from it.  The page of
    [Minecraft] has a class definition table and no summary heading, so
    detection finds no table class on it.  A new instance says that it skips
    the members and returns the two names with both mappings empty.  An
    instance that has read the page of [Entity] before still holds the table
    class [t1] of that page after detection: [fetch] does not skip the
    members part and prints no warning, and the result holds the field read
    from the page of [Entity]. *)
Lemma table_class_kept_from_previous_page :
  let fresh := initial "1.20.1" MOJANG in
  let used := (fetch site "net.minecraft.world.entity.Entity" fresh).1.2 in
  let url := "https://mappings.dev/1.20.1/net/minecraft/client/Minecraft.html" in
  let detection :=
    [AttemptDetect; Detected (TypeSlot MOJANG) "A" "net.minecraft.client.Minecraft";
     Detected ObfuscatedSlot "B" "aq"; DetectionFinished] in
  length (xp_definition_tables POTENTIAL_NAME_CELL_CLASS page_minecraft) = 1%nat
  ∧ summary_table_class "Field summary" page_minecraft = None
  ∧ summary_table_class "Method summary" page_minecraft = None
  ∧ (fetch site "net.minecraft.client.Minecraft" fresh).1.1
    = inr (Result (Some "net.minecraft.client.Minecraft") (Some "aq") ∅ ∅)
  ∧ (fetch site "net.minecraft.client.Minecraft" fresh).2
    = [HttpGet url] ++ detection ++ [WarnNoTableClass]
  ∧ field_method_table_class
      (detected_selectors (_detect_selectors page_minecraft used).1.2) = Some "t1"
  ∧ (fetch site "net.minecraft.client.Minecraft" used).1.1
    = inr (Result (Some "net.minecraft.client.Minecraft") (Some "aq")
                  {[ "level" := "bd" ]} ∅)
  ∧ (fetch site "net.minecraft.client.Minecraft" used).2 = [HttpGet url] ++ detection.
Proof. vm_compute. repeat split; reflexivity. Qed.

(** ** The walk over a summary table *)

Lemma last_cons_from (A : Type) (x : A) (l : list A) :
  last (x :: l) = Some (default x (last l)).
Proof.
  revert x. induction l as [|y l IH]; intros x; [done|].
  rewrite last_cons_cons, (IH y). done.
Qed.

Lemma startswith_length (p s : string) :
  startswith p s = true → (String.length p ≤ String.length s)%nat.
Proof.
  revert s. induction p as [|a p IH]; intros [|b s]; simpl; try lia; try discriminate.
  intros [_ H]%andb_prop. apply IH in H. lia.
Qed.

(** A flat token is too long to pass for an obfuscated name. *)
Lemma searge_member_not_obfuscated (s : string) :
  re_searge_member s = true → looks_obfuscated s = false.
Proof.
  intros H. unfold looks_obfuscated.
  assert (5 ≤ String.length s)%nat as Hlen.
  { unfold re_searge_member, drop_prefix in H.
    destruct (startswith "field_" s) eqn:H1; [apply startswith_length in H1; simpl in H1; lia|].
    destruct (startswith "method_" s) eqn:H2; [apply startswith_length in H2; simpl in H2; lia|].
    destruct (startswith "func_" s) eqn:H3; [apply startswith_length in H3; simpl in H3; lia|].
    discriminate. }
  destruct (Nat.leb_spec (String.length s) 4); [lia|done].
Qed.

(** The inner loop keeps the last flat token and the last short name. *)
Lemma searge_scan_last (els : list node) (a b : option string) :
  fold_left searge_pick els (a, b)
  = (match last (filter re_searge_member (map member_name els)) with
     | Some s => Some s
     | None => a
     end,
     match last (filter looks_obfuscated (map member_name els)) with
     | Some s => Some s
     | None => b
     end).
Proof.
  revert a b. induction els as [|e els IH]; intros a b; [done|].
  simpl. unfold searge_pick at 2. simpl.
  destruct (re_searge_member (member_name e)) eqn:Hflat.
  - rewrite IH, filter_cons_True by (by rewrite Hflat).
    rewrite filter_cons_False
      by (rewrite (searge_member_not_obfuscated _ Hflat); by intros []).
    rewrite last_cons_from. by destruct (last _).
  - rewrite filter_cons_False by (rewrite Hflat; by intros []).
    destruct (looks_obfuscated (member_name e)) eqn:Hshort.
    + rewrite IH, filter_cons_True by (by rewrite Hshort).
      rewrite last_cons_from. by destruct (last (filter looks_obfuscated _)).
    + rewrite IH, filter_cons_False by (rewrite Hshort; by intros []). done.
Qed.

Lemma last_filter_holds (p : string → bool) (l : list string) (s : string) :
  last (filter p l) = Some s → p s = true.
Proof.
  intros H. apply last_Some_elem_of in H.
  apply list_elem_of_filter in H as [H _]. by apply Is_true_true.
Qed.

(** *** What the walk stores *)

(** The loop body stores the entry of the row, when the markers stay
    inside their literals. *)
Lemma member_row_entry (t : MappingsType) (requested_marker obf_marker : string)
    (row : node) (m : gmap string string) :
  (t ≠ SEARGE → literal_ok requested_marker = true ∧ literal_ok obf_marker = true) →
  member_row t requested_marker obf_marker row m
  = inr (match row_entry t requested_marker obf_marker row with
         | Some (k, v) => <[k := v]> m
         | None => m
         end).
Proof.
  intros Hlit. unfold member_row, row_entry, searge_entry, marked_entry.
  destruct (xp_cells row) as [|c0 [|scope cs]]; [by destruct t..|].
  destruct t.
  1-3: destruct Hlit as [Hr Ho]; [done|]; unfold xp_names_after; rewrite Hr, Ho;
       by repeat case_match.
  unfold searge_scan. rewrite searge_scan_last.
  change (map member_name) with (map cut_name).
  destruct (last (filter re_searge_member _)) as [s|] eqn:Hs; [|done].
  destruct (last (filter looks_obfuscated _)) as [o|] eqn:Ho; [|done].
  apply last_filter_holds in Hs, Ho.
  rewrite (proj2 (truthy_Some s)), (proj2 (truthy_Some o)); [done|..]; intros ->; discriminate.
Qed.

Lemma member_rows_entries (t : MappingsType) (requested_marker obf_marker : string)
    (rows : list node) (m : gmap string string) :
  (t ≠ SEARGE → literal_ok requested_marker = true ∧ literal_ok obf_marker = true) →
  member_rows t requested_marker obf_marker rows m
  = (None, store_all (omap (row_entry t requested_marker obf_marker) rows) m).
Proof.
  intros Hlit. revert m. induction rows as [|row rows IH]; intros m; [done|].
  cbn [member_rows omap list_omap]. rewrite (member_row_entry _ _ _ _ _ Hlit), IH.
  by destruct (row_entry t requested_marker obf_marker row) as [[k v]|].
Qed.

(** With both markers set, [_process_member_table] stores the entries of
    the rows of [./tbody/tr], in table order, into the mapping it was given,
    and prints nothing. *)
Lemma process_member_table_entries (table : node) (which : member_dict) (self : Mappings)
    (obf req : string) :
  obfuscated_class_marker (detected_selectors self) = Some obf → obf ≠ EmptyString →
  requested_member_marker self = Some req → req ≠ EmptyString →
  (mapping_type_requested self ≠ SEARGE → literal_ok req = true ∧ literal_ok obf = true) →
  _process_member_table table which self
  = (inr tt,
     set_dict which
       (store_all (omap (row_entry (mapping_type_requested self) req obf) (xp_body_rows table))
                  (get_dict which self)) self,
     []).
Proof.
  intros Hobf Hne Hreq Hne' Hlit. unfold _process_member_table.
  rewrite Hobf, Hreq, (proj2 (truthy_Some obf) Hne), (proj2 (truthy_Some req) Hne').
  cbn [negb]. by rewrite member_rows_entries.
Qed.

(** A Searge instance with an obfuscated marker has a marker for the walk. *)
Lemma searge_member_marker (self : Mappings) (obf : string) :
  mapping_type_requested self = SEARGE →
  obfuscated_class_marker (detected_selectors self) = Some obf → obf ≠ EmptyString →
  ∃ req, requested_member_marker self = Some req ∧ req ≠ EmptyString.
Proof.
  intros Ht Hobf Hne. unfold requested_member_marker. rewrite Ht.
  destruct (searge_class_marker (detected_selectors self)) as [s|] eqn:Hs.
  - destruct (truthy (Some s)) eqn:Htr.
    + exists s. split; [done|]. by apply truthy_Some.
    + exists obf. by rewrite Hobf.
  - exists obf. by rewrite Hobf.
Qed.

Lemma store_all_lookup (k : string) (ws : list (string * string)) (m : gmap string string) :
  store_all ws m !! k = match last_write k ws with Some v => Some v | None => m !! k end.
Proof.
  revert m. induction ws as [|[k' v] ws IH]; intros m; [done|].
  unfold store_all in *. simpl. rewrite IH.
  destruct (last_write k ws); [done|].
  case_decide; subst; [apply lookup_insert_eq|by apply lookup_insert_ne].
Qed.

Lemma last_write_elem (k v : string) (ws : list (string * string)) :
  last_write k ws = Some v → (k, v) ∈ ws.
Proof.
  induction ws as [|[k' v'] ws IH]; [done|]. simpl.
  destruct (last_write k ws) as [v0|].
  - intros [= ->]. by apply list_elem_of_further, IH.
  - case_decide; [|done]. intros [= ->]. subst. apply list_elem_of_here.
Qed.

Lemma last_write_is_Some (k v : string) (ws : list (string * string)) :
  (k, v) ∈ ws → is_Some (last_write k ws).
Proof.
  induction ws as [|[k' v'] ws IH]; [by intros ?%not_elem_of_nil|]. simpl.
  intros [Heq|Hin]%elem_of_cons.
  - simplify_eq. destruct (last_write k' ws); [eauto|]. rewrite decide_True by done. eauto.
  - destruct (IH Hin) as [v0 ->]. eauto.
Qed.

Lemma last_filter_is_Some {A} (p : A → bool) (l : list A) :
  is_Some (last (filter p l)) ↔ ∃ x, x ∈ l ∧ p x = true.
Proof.
  split.
  - intros [x Hx]. apply last_Some_elem_of, list_elem_of_filter in Hx as [Hp Hin].
    exists x. split; [done|]. by apply Is_true_true.
  - intros (x & Hin & Hp).
    assert (Hf : x ∈ filter p l) by (apply list_elem_of_filter; by rewrite Hp).
    destruct (filter p l) as [|y l'] eqn:Hl; [by apply not_elem_of_nil in Hf|].
    rewrite last_cons_from. eauto.
Qed.

(** C6.  Under Searge, whatever the two markers are.  The loop body reads
    every name cell of class [F] that follows a cell with a class attribute
    inside the second cell of the row, cuts each name at its first
    parenthesis, and stores the last flat name under the last short name
    when the row has both, and nothing otherwise.  A row contributes an entry
    exactly when some name of it has the flat shape and some name has the
    short shape.  And [_process_member_table] on a Searge instance with an
    obfuscated marker walks the rows of [./tbody/tr] and stores their
    entries, in order, into the mapping of the instance it was given: every
    entry of a row is in the mapping afterwards under its key, and what the
    mapping holds afterwards it held before or is the entry of a row. *)
Theorem searge_row_pairs :
  (∀ requested_marker obf_marker row first scope rest (mapping_dict : gmap string string),
     xp_cells row = first :: scope :: rest →
     let names := map member_name (xp_names_after_any POTENTIAL_NAME_CELL_CLASS scope) in
     member_row SEARGE requested_marker obf_marker row mapping_dict
     = inr (match last (filter re_searge_member names),
                  last (filter looks_obfuscated names) with
            | Some searge_name, Some obfuscated_name =>
                <[searge_name := obfuscated_name]> mapping_dict
            | _, _ => mapping_dict
            end))
  ∧ (∀ row,
       is_Some (searge_entry row) ↔
       ∃ first scope rest,
         xp_cells row = first :: scope :: rest
         ∧ (∃ e, e ∈ xp_names_after_any POTENTIAL_NAME_CELL_CLASS scope
                 ∧ re_searge_member (cut_name e) = true)
         ∧ (∃ e, e ∈ xp_names_after_any POTENTIAL_NAME_CELL_CLASS scope
                 ∧ looks_obfuscated (cut_name e) = true))
  ∧ (∀ table which self obf,
       mapping_type_requested self = SEARGE →
       obfuscated_class_marker (detected_selectors self) = Some obf →
       obf ≠ EmptyString →
       let after := (_process_member_table table which self).1.2 in
       _process_member_table table which self
       = (inr tt,
          set_dict which
            (store_all (omap searge_entry (xp_body_rows table)) (get_dict which self)) self,
          [])
       ∧ (∀ row searge_name obfuscated_name,
            row ∈ xp_body_rows table →
            searge_entry row = Some (searge_name, obfuscated_name) →
            is_Some (get_dict which after !! searge_name))
       ∧ (∀ k v, get_dict which after !! k = Some v →
            get_dict which self !! k = Some v
            ∨ ∃ row, row ∈ xp_body_rows table ∧ searge_entry row = Some (k, v))).
Proof.
  split; [|split].
  - intros rm om row first scope rest dict Hcells names.
    unfold member_row, searge_scan. rewrite Hcells.
    rewrite searge_scan_last. fold names.
    destruct (last (filter re_searge_member names)) as [s|] eqn:Hs; [|done].
    destruct (last (filter looks_obfuscated names)) as [o|] eqn:Ho; [|done].
    apply last_filter_holds in Hs, Ho.
    assert (truthy (Some s) = true) as ->.
    { apply truthy_Some. intros ->. discriminate. }
    assert (truthy (Some o) = true) as ->; [|done].
    apply truthy_Some. intros ->. discriminate.
  - intros row. unfold searge_entry.
    destruct (xp_cells row) as [|c0 [|scope cs]].
    1-2: split; [by intros [? ?]|by intros (? & ? & ? & ? & _)].
    set (els := xp_names_after_any POTENTIAL_NAME_CELL_CLASS scope).
    pose proof (last_filter_is_Some re_searge_member (map cut_name els)) as Hs.
    pose proof (last_filter_is_Some looks_obfuscated (map cut_name els)) as Ho.
    split.
    + intros Hsome. exists c0, scope, cs. split; [done|].
      destruct (last (filter re_searge_member _)) as [s|]; [|by destruct Hsome].
      destruct (last (filter looks_obfuscated _)) as [o|]; [|by destruct Hsome].
      destruct (proj1 Hs ltac:(eauto)) as (x & [e [-> He]]%list_elem_of_fmap & Hx).
      destruct (proj1 Ho ltac:(eauto)) as (y & [e' [-> He']]%list_elem_of_fmap & Hy).
      split; [by exists e|by exists e'].
    + intros (first & scope' & rest & [= <- <- <-] & (e & He & Hpe) & (e' & He' & Hpe')).
      destruct (proj2 Hs) as [s ->].
      { exists (cut_name e). split; [|done]. apply list_elem_of_fmap. eauto. }
      destruct (proj2 Ho) as [o ->]; [|eauto].
      exists (cut_name e'). split; [|done]. apply list_elem_of_fmap. eauto.
  - intros table which self obf Ht Hobf Hne after.
    destruct (searge_member_marker self obf Ht Hobf Hne) as (req & Hreq & Hne').
    pose proof (process_member_table_entries table which self obf req Hobf Hne Hreq Hne')
      as Hwalk.
    rewrite Ht in Hwalk. specialize (Hwalk ltac:(done)).
    change (row_entry SEARGE req obf) with searge_entry in Hwalk.
    subst after. rewrite Hwalk. split; [done|].
    assert (Hget : ∀ m, get_dict which (set_dict which m self) = m) by (by destruct which).
    cbn [fst snd]. rewrite Hget. split.
    + intros row s o Hrow Hentry. rewrite store_all_lookup.
      destruct (last_write_is_Some s o (omap searge_entry (xp_body_rows table))) as [v ->];
        [|eauto].
      apply list_elem_of_omap. eauto.
    + intros k v. rewrite store_all_lookup.
      destruct (last_write k _) as [v'|] eqn:Hlast; [|by left].
      intros [= ->]. right.
      apply last_write_elem, list_elem_of_omap in Hlast. done.
Qed.

(** The scenario of the specification: a summary table with the row of
    [field_1234_a] and [bd], walked by a Searge instance that has read the
    class table of [Entity]. *)
Lemma searge_row_pairs_witness :
  let self := (_detect_selectors page_entity (initial "1.20.1" SEARGE)).1.2 in
  let table := Elem "table" [("class", "t1")] [Elem "tbody" [] [row_field_1234]] in
  searge_entry row_field_1234 = Some ("field_1234_a", "bd")
  ∧ field_mappings (_process_member_table table FieldMappings self).1.2
    = {[ "field_1234_a" := "bd" ]}.
Proof.
  intros self table. split; [reflexivity|].
  destruct (proj2 (proj2 searge_row_pairs) table FieldMappings self "o1"
              eq_refl eq_refl ltac:(discriminate)) as [-> _].
  vm_compute. reflexivity.
Defined.

(** ** Names are cut at the first parenthesis *)

Lemma contains_paren_cons (c : ascii) (s : string) :
  contains "(" (String c s) = Ascii.eqb "(" c || contains "(" s.
Proof. simpl. by rewrite andb_true_r. Qed.

Lemma contains_paren_app (pre post : string) :
  contains "(" (pre +:+ String "(" post) = true.
Proof.
  induction pre as [|c pre IH]; [done|].
  change (String c pre +:+ String "(" post) with (String c (pre +:+ String "(" post)).
  rewrite contains_paren_cons, IH. apply orb_true_r.
Qed.

Lemma split_paren_head (pre post : string) :
  contains "(" pre = false →
  hd EmptyString (split "(" (pre +:+ String "(" post)) = pre.
Proof.
  induction pre as [|c pre IH]; [done|].
  rewrite contains_paren_cons. intros [Hc Hpre]%orb_false_elim.
  change (String c pre +:+ String "(" post) with (String c (pre +:+ String "(" post)).
  simpl. rewrite Ascii.eqb_sym, Hc.
  specialize (IH Hpre).
  destruct (split "(" (pre +:+ String "(" post)) as [|w ws]; simpl in *; by subst.
Qed.

Lemma strip_paren_cut (pre post : string) :
  contains "(" pre = false → strip_paren (pre +:+ String "(" post) = pre.
Proof.
  intros H. unfold strip_paren. rewrite contains_paren_app. by apply split_paren_head.
Qed.

Lemma strip_paren_keep (name : string) :
  contains "(" name = false → strip_paren name = name.
Proof. intros H. unfold strip_paren. by rewrite H. Qed.

Lemma split_paren_head_clean (s : string) :
  contains "(" (hd EmptyString (split "(" s)) = false.
Proof.
  induction s as [|c s IH]; [done|]. simpl split.
  destruct (Ascii.eqb c "(") eqn:Hc; [done|].
  destruct (split "(" s) as [|w ws]; simpl hd in *.
  - rewrite contains_paren_cons, Ascii.eqb_sym, Hc. done.
  - rewrite contains_paren_cons, Ascii.eqb_sym, Hc, IH. done.
Qed.

Lemma member_name_no_paren (e : node) : contains "(" (member_name e) = false.
Proof.
  unfold member_name, strip_paren.
  destruct (contains "(" (strip (text_content e))) eqn:H; [|done].
  apply split_paren_head_clean.
Qed.

Lemma here_of_filtered (p : loc → bool) (ls : list loc) (x : node) :
  x ∈ map here (filter p ls) → x ∈ map here ls.
Proof.
  intros (l & -> & Hl)%list_elem_of_fmap. apply list_elem_of_filter in Hl as [_ Hl].
  apply list_elem_of_fmap. eauto.
Qed.

(** The key and the value of the entry of a row are names of cells inside
    the second cell of the row, cut at the first parenthesis. *)
Lemma row_entry_names (t : MappingsType) (requested_marker obf_marker : string)
    (row : node) (k v : string) :
  row_entry t requested_marker obf_marker row = Some (k, v) →
  ∃ first scope rest m o,
    xp_cells row = first :: scope :: rest
    ∧ m ∈ map here (below scope) ∧ o ∈ map here (below scope)
    ∧ k = strip_paren (strip (text_content m))
    ∧ v = strip_paren (strip (text_content o))
    ∧ contains "(" k = false ∧ contains "(" v = false.
Proof.
  assert (Hmarked : marked_entry requested_marker obf_marker row = Some (k, v) →
    ∃ first scope rest m o,
      xp_cells row = first :: scope :: rest
      ∧ m ∈ map here (below scope) ∧ o ∈ map here (below scope)
      ∧ k = strip_paren (strip (text_content m))
      ∧ v = strip_paren (strip (text_content o))
      ∧ contains "(" k = false ∧ contains "(" v = false).
  { unfold marked_entry, xp_names_after.
    destruct (xp_cells row) as [|c0 [|scope cs]]; [done..|].
    destruct (literal_ok requested_marker); [|done].
    destruct (map here (filter _ (below scope))) as [|m ms] eqn:Hm; [done|].
    destruct (literal_ok obf_marker); [|done].
    destruct (map here (filter (name_after (class_is obf_marker) _) (below scope)))
      as [|o os] eqn:Ho; [done|].
    intros [= <- <-]. exists c0, scope, cs, m, o. split; [done|].
    split; [eapply here_of_filtered; rewrite Hm; apply list_elem_of_here|].
    split; [eapply here_of_filtered; rewrite Ho; apply list_elem_of_here|].
    split; [done|]. split; [done|]. split; apply member_name_no_paren. }
  destruct t; try exact Hmarked.
  unfold row_entry, searge_entry.
  destruct (xp_cells row) as [|c0 [|scope cs]]; [done..|].
  destruct (last (filter re_searge_member _)) as [s|] eqn:Hs; [|done].
  destruct (last (filter looks_obfuscated _)) as [b|] eqn:Hb; [|done].
  intros [= <- <-].
  apply last_Some_elem_of, list_elem_of_filter in Hs as [_ Hs].
  apply last_Some_elem_of, list_elem_of_filter in Hb as [_ Hb].
  apply list_elem_of_fmap in Hs as (m & -> & Hm).
  apply list_elem_of_fmap in Hb as (o & -> & Ho).
  exists c0, scope, cs, m, o. split; [done|].
  split; [by eapply here_of_filtered|]. split; [by eapply here_of_filtered|].
  split; [done|]. split; [done|]. split; apply member_name_no_paren.
Qed.

(** C7.  Cutting a name keeps the text before its first parenthesis, and
    the whole text when it has none.  For every type but Searge the loop
    body stores, for a row, the name of the first cell after the requested
    marker under the name of the first cell after the obfuscated marker, both
    trimmed and cut this way; for Searge the key and the value it stores are
    names of cells of the row cut this way.  And [_process_member_table],
    for every type, stores exactly these entries of the rows of [./tbody/tr]
    into the mapping of the instance it was given: every entry of a row is
    in the mapping afterwards under its cut key, what the mapping holds
    afterwards it held before or is the entry of a row, and the key and the
    value of every entry are cell texts cut at the first parenthesis. *)
Theorem paren_stripping :
  (∀ pre post, contains "(" pre = false → strip_paren (pre +:+ String "(" post) = pre)
  ∧ (∀ name, contains "(" name = false → strip_paren name = name)
  ∧ (∀ t requested_marker obf_marker row first scope rest m ms o os
       (mapping_dict : gmap string string),
       t ≠ SEARGE →
       xp_cells row = first :: scope :: rest →
       xp_names_after requested_marker POTENTIAL_NAME_CELL_CLASS scope = Some (m :: ms) →
       xp_names_after obf_marker POTENTIAL_NAME_CELL_CLASS scope = Some (o :: os) →
       member_row t requested_marker obf_marker row mapping_dict
       = inr (<[strip_paren (strip (text_content m))
                := strip_paren (strip (text_content o))]> mapping_dict))
  ∧ (∀ requested_marker obf_marker row first scope rest
       (mapping_dict : gmap string string),
       xp_cells row = first :: scope :: rest →
       member_row SEARGE requested_marker obf_marker row mapping_dict = inr mapping_dict
       ∨ ∃ m o, m ∈ xp_names_after_any POTENTIAL_NAME_CELL_CLASS scope
                ∧ o ∈ xp_names_after_any POTENTIAL_NAME_CELL_CLASS scope
                ∧ member_row SEARGE requested_marker obf_marker row mapping_dict
                  = inr (<[strip_paren (strip (text_content m))
                           := strip_paren (strip (text_content o))]> mapping_dict))
  ∧ (∀ table which self obf req,
       obfuscated_class_marker (detected_selectors self) = Some obf →
       obf ≠ EmptyString →
       requested_member_marker self = Some req →
       req ≠ EmptyString →
       (mapping_type_requested self ≠ SEARGE →
        literal_ok req = true ∧ literal_ok obf = true) →
       let t := mapping_type_requested self in
       let after := (_process_member_table table which self).1.2 in
       _process_member_table table which self
       = (inr tt,
          set_dict which
            (store_all (omap (row_entry t req obf) (xp_body_rows table))
                       (get_dict which self)) self,
          [])
       ∧ (∀ row k v,
            row ∈ xp_body_rows table → row_entry t req obf row = Some (k, v) →
            is_Some (get_dict which after !! k))
       ∧ (∀ k v, get_dict which after !! k = Some v →
            get_dict which self !! k = Some v
            ∨ ∃ row, row ∈ xp_body_rows table ∧ row_entry t req obf row = Some (k, v)))
  ∧ (∀ t requested_marker obf_marker row k v,
       row_entry t requested_marker obf_marker row = Some (k, v) →
       ∃ first scope rest m o,
         xp_cells row = first :: scope :: rest
         ∧ m ∈ map here (below scope) ∧ o ∈ map here (below scope)
         ∧ k = strip_paren (strip (text_content m))
         ∧ v = strip_paren (strip (text_content o))
         ∧ contains "(" k = false ∧ contains "(" v = false).
Proof.
  split; [exact strip_paren_cut|]. split; [exact strip_paren_keep|].
  split; [|split; [|split; [|exact row_entry_names]]].
  - intros t rm om row first scope rest m ms o os dict Ht Hcells Hm Ho.
    unfold member_row. rewrite Hcells, Hm, Ho. by destruct t.
  - intros rm om row first scope rest dict Hcells.
    unfold member_row, searge_scan. rewrite Hcells, searge_scan_last.
    set (els := xp_names_after_any POTENTIAL_NAME_CELL_CLASS scope).
    destruct (last (filter re_searge_member (map member_name els))) as [s|] eqn:Hs;
      [|by left].
    destruct (last (filter looks_obfuscated (map member_name els))) as [b|] eqn:Hb;
      [|by left].
    destruct (truthy (Some s) && truthy (Some b)); [|by left].
    right.
    apply last_Some_elem_of, list_elem_of_filter in Hs as [_ Hs].
    apply last_Some_elem_of, list_elem_of_filter in Hb as [_ Hb].
    apply list_elem_of_fmap in Hs as (m & -> & Hm).
    apply list_elem_of_fmap in Hb as (o & -> & Ho).
    exists m, o. done.
  - intros table which self obf req Hobf Hne Hreq Hne' Hlit t after.
    pose proof (process_member_table_entries table which self obf req
                  Hobf Hne Hreq Hne' Hlit) as Hwalk.
    subst after t. rewrite Hwalk. split; [done|].
    assert (Hget : ∀ m, get_dict which (set_dict which m self) = m) by (by destruct which).
    cbn [fst snd]. rewrite Hget.
    set (entries := omap (row_entry (mapping_type_requested self) req obf)
                         (xp_body_rows table)).
    split.
    + intros row k v Hrow Hentry. rewrite store_all_lookup.
      destruct (last_write_is_Some k v entries) as [v' ->]; [|eauto].
      apply list_elem_of_omap. eauto.
    + intros k v. rewrite store_all_lookup.
      destruct (last_write k entries) as [v'|] eqn:Hlast; [|by left].
      intros [= ->]. right.
      apply last_write_elem, list_elem_of_omap in Hlast. done.
Qed.

(** The scenario of the specification: the method table of the page of
    [AABB], walked by a Mojang instance that has read the class table of
    that page, gives [getBoundingBox] for the cell text with the signature. *)
Lemma paren_stripping_witness :
  let self := (_detect_selectors page_aabb (initial "1.20.1" MOJANG)).1.2 in
  let table :=
    Elem "table" [("class", "t2")]
      [Elem "tbody" []
         [member_row_of [("m2", "getBoundingBox(Lnet/minecraft/...)");
                         ("s2", "func_72_b(I)"); ("o2", "e(I)")]]] in
  strip_paren "getBoundingBox(Lnet/minecraft/...)" = "getBoundingBox"
  ∧ strip_paren "minX" = "minX"
  ∧ method_mappings (_process_member_table table MethodMappings self).1.2
    = {[ "getBoundingBox" := "e" ]}.
Proof.
  intros self table. split; [|split].
  - exact (proj1 paren_stripping "getBoundingBox" "Lnet/minecraft/...)" eq_refl).
  - exact (proj1 (proj2 paren_stripping) "minX" eq_refl).
  - destruct (proj1 (proj2 (proj2 (proj2 (proj2 paren_stripping))))
                table MethodMappings self "o2" "m2"
                eq_refl ltac:(discriminate) eq_refl ltac:(discriminate)
                (λ _, conj eq_refl eq_refl)) as [-> _].
    vm_compute. reflexivity.
Defined.

(** ** Rows without the two names *)

Lemma member_rows_skip (t : MappingsType) (requested_marker obf_marker : string)
    (row : node) (rows1 rows2 : list node) :
  (∀ m : gmap string string, member_row t requested_marker obf_marker row m = inr m) →
  ∀ m : gmap string string,
    member_rows t requested_marker obf_marker (rows1 ++ row :: rows2) m
    = member_rows t requested_marker obf_marker (rows1 ++ rows2) m.
Proof.
  intros Hrow. induction rows1 as [|r rows1 IH]; intros m; simpl.
  - by rewrite Hrow.
  - destruct (member_row t requested_marker obf_marker r m); [done|apply IH].
Qed.

(** C8.  A row with fewer than two cells, and for every type but Searge a
    row whose second cell has no name cell after the requested marker or
    none after the obfuscated marker, leaves the mapping as it is and
    raises nothing: the walk over the table gives the same mapping and the
    same outcome as the walk over the table without that row. *)
Theorem incomplete_rows_skipped (t : MappingsType) (requested_marker obf_marker : string)
    (row : node) (rows1 rows2 : list node) (mapping_dict : gmap string string) :
  (length (xp_cells row) < 2)%nat
  ∨ (t ≠ SEARGE
     ∧ ∃ first scope rest mapped obfs,
         xp_cells row = first :: scope :: rest
         ∧ xp_names_after requested_marker POTENTIAL_NAME_CELL_CLASS scope = Some mapped
         ∧ xp_names_after obf_marker POTENTIAL_NAME_CELL_CLASS scope = Some obfs
         ∧ (mapped = [] ∨ obfs = [])) →
  member_row t requested_marker obf_marker row mapping_dict = inr mapping_dict
  ∧ member_rows t requested_marker obf_marker (rows1 ++ row :: rows2) mapping_dict
    = member_rows t requested_marker obf_marker (rows1 ++ rows2) mapping_dict.
Proof.
  intros H.
  assert (Hrow : ∀ m : gmap string string,
             member_row t requested_marker obf_marker row m = inr m).
  { intros m. unfold member_row.
    destruct H as [Hlen | (Ht & first & scope & rest & mapped & obfs & -> & -> & -> & Hor)].
    - destruct (xp_cells row) as [|c0 [|c1 cs]]; [done|done|simpl in Hlen; lia].
    - destruct t; try done; destruct Hor as [-> | ->]; [done| |done| |done|];
        by destruct mapped. }
  split; [apply Hrow|by apply member_rows_skip].
Qed.

(** A row with one cell, and a row that has the Mojang name but no
    obfuscated name, between two complete rows. *)
Lemma incomplete_rows_skipped_witness :
  member_rows MOJANG "m1" "o1"
    [member_row_of [("m1", "level"); ("o1", "bd")];
     Elem "tr" [] [Elem "td" [] [Text "inherited"]];
     member_row_of [("m1", "random"); ("o1", "be")]] ∅
  = member_rows MOJANG "m1" "o1"
      [member_row_of [("m1", "level"); ("o1", "bd")];
       member_row_of [("m1", "random"); ("o1", "be")]] ∅
  ∧ member_row MOJANG "m1" "o1" (member_row_of [("m1", "tickCount")]) ∅ = inr ∅.
Proof.
  split.
  - refine (proj2 (incomplete_rows_skipped MOJANG "m1" "o1"
             (Elem "tr" [] [Elem "td" [] [Text "inherited"]])
             [member_row_of [("m1", "level"); ("o1", "bd")]]
             [member_row_of [("m1", "random"); ("o1", "be")]] ∅ _)).
    left. vm_compute. lia.
  - refine (proj1 (incomplete_rows_skipped MOJANG "m1" "o1"
             (member_row_of [("m1", "tickCount")]) [] [] ∅ _)).
    right. split; [discriminate|].
    eexists _, _, _, _, _. split; [reflexivity|].
    split; [reflexivity|]. split; [reflexivity|]. by right.
Defined.

(** ** Running detection again on the same page *)

#[local] Arguments detect_row : simpl never.









Lemma detect_table_class_cases (tree : node) (d : selectors) :
  (detect_table_class tree d).1 = d
  ∨ ∃ c, (detect_table_class tree d).1 = set_field_method_table_class c d.
Proof.
  unfold detect_table_class. repeat case_match; simpl; eauto.
Qed.


(** ** Walking the same table again *)


Lemma store_all_app (ws1 ws2 : list (string * string)) (m : gmap string string) :
  store_all (ws1 ++ ws2) m = store_all ws2 (store_all ws1 m).
Proof. apply fold_left_app. Qed.

(** A row raises, or stores at most one entry; which of the two, and the
    entry, do not depend on the mapping. *)
Lemma member_row_cases (t : MappingsType) (requested_marker obf_marker : string)
    (row : node) :
  (∃ e, ∀ m : gmap string string,
      member_row t requested_marker obf_marker row m = inl e)
  ∨ (∃ ws, ∀ m : gmap string string,
      member_row t requested_marker obf_marker row m = inr (store_all ws m)).
Proof.
  unfold member_row.
  destruct (xp_cells row) as [|c0 [|scope cs]]; [right; by exists []..|].
  destruct t.
  1-3: destruct (xp_names_after requested_marker _ scope) as [[|m ms]|]; [| |by eauto];
       (destruct (xp_names_after obf_marker _ scope) as [[|o os]|]; [| |by eauto]);
       right; first [by exists [] | by eexists [(_, _)]].
  destruct (searge_scan _) as [[s|] [o|]]; [|right; by exists []..].
  destruct (truthy (Some s) && truthy (Some o)); right;
    first [by exists [] | by eexists [(_, _)]].
Qed.

Lemma member_rows_writes (t : MappingsType) (requested_marker obf_marker : string)
    (rows : list node) :
  ∃ e ws, ∀ m : gmap string string,
    member_rows t requested_marker obf_marker rows m = (e, store_all ws m).
Proof.
  induction rows as [|row rows (e & ws & IH)]; [by exists None, []|].
  destruct (member_row_cases t requested_marker obf_marker row) as [[e' H] | [ws' H]].
  - exists (Some e'), []. intros m. simpl. by rewrite H.
  - exists e, (ws' ++ ws). intros m. simpl. by rewrite H, IH, store_all_app.
Qed.












(** ** Calling [fetch] again *)


(** ** One instance, several pages *)

Lemma found_add_here (t : MappingsType) (f : gset MappingsType) : t ∈ {[t]} ∪ f.
Proof. set_solver. Qed.

(** On a pass that starts with the separate Searge slot unset, as the
    constructor leaves it, the first plain dotted row gives the Mojang
    marker and the second one the Searge slot. *)
Lemma plain_rows_first_pass (rows : list node) (d d' : selectors)
    (f f' : gset MappingsType) (o : list event) :
  detect_rows rows (d, f) = ((d', f'), o) →
  searge_class_marker d = None →
  (MOJANG ∈ f → searge_class_marker d' = head (markers_of PlainName rows))
  ∧ (MOJANG ∉ f →
     searge_class_marker d' = markers_of PlainName rows !! 1%nat
     ∧ ∀ m, head (markers_of PlainName rows) = Some m →
            class_name_markers d' !! MOJANG = Some m).
Proof.
  revert d f o. induction rows as [|row rows IH]; intros d f o; simpl.
  - intros ? Hd; simplify_eq. rewrite Hd. split; [done|]. split; [done|]. discriminate.
  - destruct (detect_row row (d, f)) as [[d1 f1] o1] eqn:Hrow.
    destruct (detect_rows rows (d1, f1)) as [[d2 f2] o2] eqn:Hrest.
    intros ? Hd; simplify_eq.
    unfold markers_of. simpl. fold (markers_of PlainName rows).
    revert Hrow. unfold detect_row, row_kind.
    destruct (row_sample row) as [[m t]|];
      [|intros ?; simplify_eq; by apply (IH _ _ _ Hrest)].
    destruct (name_kind_of t) as [[]|]; simpl;
      [| | | |intros ?; simplify_eq; by apply (IH _ _ _ Hrest)].
    1-3: case_bool_decide; intros ?; simplify_eq;
         destruct (IH _ _ _ Hrest Hd) as [IH1 IH2];
         (split; [intros Hm; apply IH1|intros Hm; apply IH2]);
         rewrite ?elem_of_union, ?elem_of_singleton;
         first [done | by right | by intros [?|?]].
    case_bool_decide as Hin.
    + rewrite Hd. intros ?; simplify_eq. split; [|done]. intros _.
      destruct (detect_rows_frozen (TypeSlot SEARGE) _ _ _ _ Hrest) as (_ & _ & H);
        [done|].
      destruct (H m) as [_ Hm]; [split; [apply lookup_insert_eq|done]|]. by apply Hm.
    + intros ?; simplify_eq. split; [done|]. intros _.
      destruct (IH _ _ _ Hrest Hd) as [IH1 _].
      split; [rewrite IH1 by apply found_add_here; apply head_lookup|].
      intros m' [= <-].
      destruct (detect_rows_frozen (TypeSlot MOJANG) _ _ _ _ Hrest) as (_ & _ & H);
        [apply found_add_here|].
      destruct (H m) as [Hm _]; [split; [apply lookup_insert_eq|done]|]. done.
Qed.

(** C2 at the input where the code departs from it.  A Searge instance
    reads the page of [Entity], then the page of [AABB].  The class table
    of the second page has the plain dotted rows [m2] and [s2]; detection on
    that page records [m2] for Mojang, reports nothing for Searge and leaves
    the separate slot at [s1], the marker of the first page.  An instance
    that reads the second page first records [s2]. *)
Lemma secondary_slot_kept_from_previous_page :
  let e1 := (fetch site "net.minecraft.world.entity.Entity" (initial "1.20.1" SEARGE)).1.2 in
  let again := _detect_selectors page_aabb e1 in
  flat_map (markers_of PlainName ∘ xp_rows)
           (take 1 (xp_definition_tables POTENTIAL_NAME_CELL_CLASS page_aabb))
  = ["m2"; "s2"]
  ∧ class_name_markers (detected_selectors again.1.2) !! MOJANG = Some "m2"
  ∧ recorded (TypeSlot SEARGE) again.2 = []
  ∧ searge_class_marker (detected_selectors again.1.2) = Some "s1"
  ∧ searge_class_marker
      (detected_selectors (_detect_selectors page_aabb (initial "1.20.1" SEARGE)).1.2)
    = Some "s2".
Proof. vm_compute. repeat split; reflexivity. Qed.

(** C9 at the input where the code departs from it.  A Searge instance
    that read the page of [Entity] fails on the page of [AABB], because it
    looks for the Searge marker [s1] of the first page; a fresh instance
    reads that page.  And on a page without any table the same instance
    goes on with the obfuscated marker of the first page, where a fresh
    instance reports that no obfuscated marker was detected. *)
Lemma selectors_survive_between_fetches :
  let fresh := initial "1.20.1" SEARGE in
  let used := (fetch site "net.minecraft.world.entity.Entity" fresh).1.2 in
  (fetch site "net.minecraft.world.phys.AABB" fresh).1.1
  = inr (Result (Some "net.minecraft.world.phys.AABB") (Some "cd") ∅
                {[ "func_72_b" := "e" ]})
  ∧ (fetch site "net.minecraft.world.phys.AABB" used).1.1
    = inl (ValueError (NoMappingName SEARGE "s1"))
  ∧ (fetch site "gone" fresh).1.1 = inl (ValueError NoObfuscatedMarker)
  ∧ (fetch site "gone" used).1.1 = inl (ValueError TableNotRefound)
  ∧ obfuscated_class_marker (detected_selectors (fetch site "gone" used).1.2)
    = Some "o1".
Proof. vm_compute. repeat split; reflexivity. Qed.

(** * Further properties *)

(** ** What [fetch] prints and requests *)

Lemma requests_app (out1 out2 : list event) :
  requests (out1 ++ out2) = requests out1 ++ requests out2.
Proof. apply omap_app. Qed.

Lemma detect_row_requests (row : node) (st : detect_state) :
  requests (detect_row row st).2 = [].
Proof.
  unfold detect_row. destruct st as [d f]. repeat case_match; done.
Qed.

Lemma detect_rows_requests (rows : list node) (st : detect_state) :
  requests (detect_rows rows st).2 = [].
Proof.
  revert st. induction rows as [|row rows IH]; intros st; [done|].
  simpl. pose proof (detect_row_requests row st) as Hrow.
  destruct (detect_row row st) as [st1 o1]. simpl in Hrow.
  specialize (IH st1). destruct (detect_rows rows st1) as [st2 o2]. simpl in *.
  by rewrite requests_app, Hrow, IH.
Qed.

Lemma detect_requests (tree : node) (d : selectors) : requests (detect tree d).2 = [].
Proof.
  unfold detect. destruct (xp_definition_tables _ tree) as [|t ts]; [done|].
  pose proof (detect_rows_requests (xp_rows t) (d, ∅)) as Hrows.
  destruct (detect_rows (xp_rows t) (d, ∅)) as [[d1 f1] o1]. simpl in Hrows.
  assert (requests (detect_table_class tree d1).2 = []) as Htab.
  { unfold detect_table_class. repeat case_match; done. }
  destruct (detect_table_class tree d1) as [d2 o2]. simpl in *.
  by rewrite !requests_app, Hrows, Htab.
Qed.

Lemma class_names_prints_nothing (tree : node) (self : Mappings) :
  (class_names tree self).2 = [].
Proof. unfold class_names. repeat case_match; done. Qed.

Lemma process_summary_requests (tree : node) (heading : string) selector
    (which : member_dict) (self : Mappings) :
  requests (process_summary tree heading selector which self).2 = [].
Proof.
  unfold process_summary, _process_member_table, raise, ret. repeat case_match; done.
Qed.

Lemma members_requests (tree : node) (self : Mappings) :
  requests (members tree self).2 = [].
Proof.
  unfold members, bind. case_match; [done|].
  set (selector := member_table_selector _).
  pose proof (process_summary_requests tree "Field summary" selector FieldMappings self) as H1.
  destruct (process_summary tree "Field summary" selector FieldMappings self)
    as [[[e|[]] s1] o1]; [done|].
  pose proof (process_summary_requests tree "Method summary" selector MethodMappings s1) as H2.
  destruct (process_summary tree "Method summary" selector MethodMappings s1)
    as [[r2 s2] o2]. simpl in *. by rewrite requests_app, H1, H2.
Qed.

Lemma fetch_requests (net : string → page_error + node) (class_path : string)
    (self : Mappings) :
  requests (fetch net class_path self).2 = [url_of (version self) class_path].
Proof.
  rewrite fetch_unfold. simpl.
  destruct (net _) as [e|tree]; [done|].
  pose proof (detect_requests tree (detected_selectors self)) as Hdet.
  set (r := detect tree (detected_selectors self)) in *.
  pose proof (class_names_prints_nothing tree (set_detected_selectors r.1 self)) as Hcn.
  destruct (class_names tree _) as [[[e|[]] s2] o2]; simpl in Hcn; subst o2.
  - simpl. by rewrite requests_app, Hdet.
  - pose proof (members_requests tree s2) as Hmem.
    destruct (members tree s2) as [[[e|[]] s3] o3]; simpl in *;
      by rewrite !requests_app, Hdet, ?Hmem.
Qed.

Lemma fetch_keeps_version (net : string → page_error + node) (class_path : string)
    (self : Mappings) :
  version (fetch net class_path self).1.2 = version self.
Proof.
  rewrite fetch_unfold. simpl.
  destruct (net _) as [pe|tree]; [done|].
  destruct (class_names tree _) as [[r2 s2] o2] eqn:Hcn.
  apply class_names_frame in Hcn as (Hv2 & _). simpl in Hv2.
  destruct r2 as [e|[]]; [done|].
  destruct (members tree s2) as [[r3 s3] o3] eqn:Hmem.
  apply members_frame in Hmem as (Hv3 & _).
  destruct r3 as [e|[]]; simpl; congruence.
Qed.

(** X1.  Every call of [fetch] sends one request, to the address built
    from the version of the instance and the class path, before it prints
    anything; it sends no other request, whatever the page holds and
    whether the call returns or raises. *)
Theorem fetch_sends_one_request (net : string → page_error + node) (class_path : string)
    (self : Mappings) :
  requests (fetch net class_path self).2 = [url_of (version self) class_path]
  ∧ head (fetch net class_path self).2 = Some (HttpGet (url_of (version self) class_path)).
Proof.
  rewrite fetch_unfold. simpl.
  destruct (net _) as [e|tree]; [done|].
  pose proof (detect_requests tree (detected_selectors self)) as Hdet.
  set (r := detect tree (detected_selectors self)) in *.
  pose proof (class_names_prints_nothing tree (set_detected_selectors r.1 self)) as Hcn.
  destruct (class_names tree _) as [[[e|[]] s2] o2]; simpl in Hcn; subst o2.
  - split; [|done]. simpl. by rewrite requests_app, Hdet.
  - pose proof (members_requests tree s2) as Hmem.
    destruct (members tree s2) as [[[e|[]] s3] o3]; simpl in *;
      (split; [|done]); by rewrite !requests_app, Hdet, ?Hmem.
Qed.

(** ** What [fetch] raises *)

Lemma class_names_errors (tree : node) (self : Mappings) (e : exn) :
  (class_names tree self).1.1 = inl e →
  (∃ fe, e = ValueError fe) ∨ (∃ v, e = XPathLiteralBroken v).
Proof.
  unfold class_names, resolve_markers, first_or_raise.
  repeat case_match; simpl; intros ?; simplify_eq; eauto.
Qed.

Lemma member_row_errors (t : MappingsType) (requested_marker obf_marker : string)
    (row : node) (m : gmap string string) (e : exn) :
  member_row t requested_marker obf_marker row m = inl e →
  t ≠ SEARGE
  ∧ ((e = XPathLiteralBroken requested_marker ∧ literal_ok requested_marker = false)
     ∨ (e = XPathLiteralBroken obf_marker ∧ literal_ok obf_marker = false)).
Proof.
  unfold member_row, xp_names_after.
  repeat case_match; intros ?; simplify_eq; split; try done; eauto.
Qed.

Lemma member_rows_errors (t : MappingsType) (requested_marker obf_marker : string)
    (rows : list node) (m : gmap string string) (e : exn) :
  (member_rows t requested_marker obf_marker rows m).1 = Some e →
  t ≠ SEARGE
  ∧ ((e = XPathLiteralBroken requested_marker ∧ literal_ok requested_marker = false)
     ∨ (e = XPathLiteralBroken obf_marker ∧ literal_ok obf_marker = false)).
Proof.
  revert m. induction rows as [|row rows IH]; intros m; simpl; [done|].
  destruct (member_row t requested_marker obf_marker row m) as [e'|m'] eqn:Hrow.
  - simpl. intros [= <-]. by apply member_row_errors in Hrow.
  - apply IH.
Qed.

Lemma process_member_table_errors (table : node) (which : member_dict)
    (self : Mappings) (e : exn) :
  (_process_member_table table which self).1.1 = inl e →
  ∃ v, e = XPathLiteralBroken v ∧ literal_ok v = false.
Proof.
  unfold _process_member_table. repeat case_match; simpl; try done.
  intros [= <-].
  match goal with H : member_rows _ _ _ _ _ = (Some _, _) |- _ =>
    apply (f_equal fst) in H; simpl in H;
    apply member_rows_errors in H as [_ [[-> ?]|[-> ?]]] end; eauto.
Qed.

Lemma member_table_selector_errors (c : string) (e : exn) :
  member_table_selector c = inl e →
  e = XPathEvalError ∨ ∃ v, e = XPathLiteralBroken v.
Proof.
  unfold member_table_selector. repeat case_match; intros ?; simplify_eq; eauto.
Qed.

Lemma process_summary_errors (tree : node) (heading : string) (c : string)
    (which : member_dict) (self : Mappings) (e : exn) :
  (process_summary tree heading (member_table_selector c) which self).1.1 = inl e →
  e = XPathEvalError ∨ ∃ v, e = XPathLiteralBroken v.
Proof.
  unfold process_summary, raise, ret.
  destruct (xp_h4 heading tree) as [|h hs]; [done|].
  destruct (member_table_selector c) as [e'|cond] eqn:Hsel.
  - simpl. intros [= <-]. by apply member_table_selector_errors in Hsel.
  - destruct (xp_next_table cond h) as [|table ts]; [done|].
    intros H. apply process_member_table_errors in H as (v & -> & _). eauto.
Qed.

Lemma members_errors (tree : node) (self : Mappings) (e : exn) :
  (members tree self).1.1 = inl e →
  e = XPathEvalError ∨ ∃ v, e = XPathLiteralBroken v.
Proof.
  unfold members, bind. case_match; [done|].
  set (c := default EmptyString _).
  pose proof (process_summary_errors tree "Field summary" c FieldMappings self) as H1.
  destruct (process_summary tree "Field summary" _ FieldMappings self)
    as [[[e1|[]] s1] o1]; simpl in *; [intros [= <-]; by apply H1|].
  pose proof (process_summary_errors tree "Method summary" c MethodMappings s1) as H2.
  destruct (process_summary tree "Method summary" _ MethodMappings s1)
    as [[[e2|[]] s2] o2]; simpl in *; [intros [= <-]; by apply H2|done].
Qed.

(** X2.  [fetch] raises the exception of the transport or of the parser
    exactly when the site answers with it, and then the instance is as it
    was and only the request was made; every other exception of [fetch] is
    one of its own [ValueError]s or comes from an XPath expression; the
    error of the constructor is never raised by [fetch]. *)
Theorem fetch_exceptions (net : string → page_error + node) (class_path : string)
    (self : Mappings) :
  (∀ pe, (fetch net class_path self).1.1 = inl (PageError pe)
         ↔ net (url_of (version self) class_path) = inl pe)
  ∧ (∀ pe, net (url_of (version self) class_path) = inl pe →
           fetch net class_path self
           = (inl (PageError pe), self, [HttpGet (url_of (version self) class_path)]))
  ∧ (∀ e, (fetch net class_path self).1.1 = inl e →
          (∃ pe, e = PageError pe) ∨ (∃ fe, e = ValueError fe)
          ∨ e = XPathEvalError ∨ (∃ v, e = XPathLiteralBroken v)).
Proof.
  assert (Hkinds : ∀ e, (fetch net class_path self).1.1 = inl e →
    (∃ pe, e = PageError pe ∧ net (url_of (version self) class_path) = inl pe)
    ∨ (∃ fe, e = ValueError fe) ∨ e = XPathEvalError ∨ (∃ v, e = XPathLiteralBroken v)).
  { intros e. rewrite fetch_unfold. simpl.
    destruct (net _) as [pe|tree]; [simpl; intros [= <-]; eauto|].
    set (s1 := set_detected_selectors _ self).
    pose proof (class_names_errors tree s1) as Hcn.
    destruct (class_names tree s1) as [[[e1|[]] s2] o2]; simpl in *.
    { intros [= <-]. destruct (Hcn _ eq_refl); eauto. }
    pose proof (members_errors tree s2) as Hmem.
    destruct (members tree s2) as [[[e2|[]] s3] o3]; simpl in *; [|done].
    intros [= <-]. destruct (Hmem _ eq_refl); eauto. }
  split; [|split].
  - intros pe. split.
    + intros H. destruct (Hkinds _ H) as [(pe' & [= <-] & Hnet) | [[fe [=]] | [[=] | [v [=]]]]].
      done.
    + intros Hnet. rewrite fetch_unfold. simpl. by rewrite Hnet.
  - intros pe Hnet. rewrite fetch_unfold. simpl. by rewrite Hnet.
  - intros e H. destruct (Hkinds _ H) as [(pe & -> & _) | H']; eauto.
Qed.

(** An address the site does not know: the call raises the 404 and the
    instance stays as constructed. *)
Lemma fetch_exceptions_witness :
  fetch site "no.such.Class" (initial "1.20.1" MOJANG)
  = (inl (PageError (HTTPError 404)), initial "1.20.1" MOJANG,
     [HttpGet "https://mappings.dev/1.20.1/no/such/Class.html"])
  ∧ ((∃ pe, ValueError NoObfuscatedMarker = PageError pe)
     ∨ (∃ fe, ValueError NoObfuscatedMarker = ValueError fe)
     ∨ ValueError NoObfuscatedMarker = XPathEvalError
     ∨ (∃ v, ValueError NoObfuscatedMarker = XPathLiteralBroken v))
  ∧ site (url_of "1.20.1" "no.such.Class") = inl (HTTPError 404).
Proof.
  split; [|split].
  - exact (proj1 (proj2 (fetch_exceptions site "no.such.Class" (initial "1.20.1" MOJANG)))
             (HTTPError 404) eq_refl).
  - exact (proj2 (proj2 (fetch_exceptions site "gone" (initial "1.20.1" MOJANG)))
             (ValueError NoObfuscatedMarker) eq_refl).
  - apply (proj1 (fetch_exceptions site "no.such.Class" (initial "1.20.1" MOJANG))
             (HTTPError 404)).
    reflexivity.
Defined.

(** ** What [fetch] keeps on the instance *)

Lemma store_all_keeps_keys (ws : list (string * string)) (m : gmap string string)
    (k : string) :
  is_Some (m !! k) → is_Some (store_all ws m !! k).
Proof. rewrite store_all_lookup. by destruct (last_write k ws). Qed.

Lemma member_rows_keeps_keys (t : MappingsType) (requested_marker obf_marker : string)
    (rows : list node) (m : gmap string string) (k : string) :
  is_Some (m !! k) →
  is_Some ((member_rows t requested_marker obf_marker rows m).2 !! k).
Proof.
  destruct (member_rows_writes t requested_marker obf_marker rows) as (e & ws & H).
  rewrite H. apply store_all_keeps_keys.
Qed.

Lemma process_member_table_keeps_keys (table : node) (which w : member_dict)
    (self : Mappings) (k : string) :
  is_Some (get_dict w self !! k) →
  is_Some (get_dict w (_process_member_table table which self).1.2 !! k).
Proof.
  intros Hk. unfold _process_member_table. repeat case_match; simpl; try done.
  all: match goal with H : member_rows ?t ?r ?o ?rows ?m = (_, ?m1) |- _ =>
         pose proof (member_rows_keeps_keys t r o rows m k) as Hkeep;
         rewrite H in Hkeep; simpl in Hkeep end.
  all: destruct which, w; simpl in *; auto.
Qed.

Lemma process_summary_keeps_keys (tree : node) (heading : string) selector
    (which w : member_dict) (self : Mappings) (k : string) :
  is_Some (get_dict w self !! k) →
  is_Some (get_dict w (process_summary tree heading selector which self).1.2 !! k).
Proof.
  intros Hk. unfold process_summary, raise, ret. repeat case_match; simpl; try done.
  by apply process_member_table_keeps_keys.
Qed.

Lemma members_keeps_keys (tree : node) (w : member_dict) (self : Mappings) (k : string) :
  is_Some (get_dict w self !! k) →
  is_Some (get_dict w (members tree self).1.2 !! k).
Proof.
  intros Hk. unfold members, bind. case_match; [done|].
  set (selector := member_table_selector _).
  pose proof (process_summary_keeps_keys tree "Field summary" selector FieldMappings w
                self k Hk) as H1.
  destruct (process_summary tree "Field summary" selector FieldMappings self)
    as [[[e|[]] s1] o1]; simpl in *; [done|].
  pose proof (process_summary_keeps_keys tree "Method summary" selector MethodMappings w
                s1 k H1) as H2.
  by destruct (process_summary tree "Method summary" selector MethodMappings s1)
    as [[r2 s2] o2].
Qed.

Lemma detect_row_keeps_set (row : node) (st : detect_state) :
  (∀ s, is_Some (slot_value s st.1) → is_Some (slot_value s (detect_row row st).1.1))
  ∧ (is_Some (searge_class_marker st.1) →
     is_Some (searge_class_marker (detect_row row st).1.1)).
Proof.
  unfold detect_row. destruct st as [d f].
  repeat case_match; simpl; split; try done; intros [|t']; simpl; try done;
    intros Hset;
    match goal with |- is_Some (<[?t := _]> _ !! ?t') =>
      destruct (decide (t = t')) as [->|?];
      [rewrite lookup_insert_eq; eauto|by rewrite lookup_insert_ne] end.
Qed.

Lemma detect_rows_keeps_set (rows : list node) (st : detect_state) :
  (∀ s, is_Some (slot_value s st.1) → is_Some (slot_value s (detect_rows rows st).1.1))
  ∧ (is_Some (searge_class_marker st.1) →
     is_Some (searge_class_marker (detect_rows rows st).1.1)).
Proof.
  revert st. induction rows as [|row rows IH]; intros st; [done|].
  simpl. destruct (detect_row_keeps_set row st) as [H1 H2].
  destruct (detect_row row st) as [st1 o1]. simpl in *.
  destruct (IH st1) as [H3 H4].
  destruct (detect_rows rows st1) as [st2 o2]. simpl in *. split; auto.
Qed.

Lemma detect_keeps_set (tree : node) (d : selectors) :
  (∀ s, is_Some (slot_value s d) → is_Some (slot_value s (detect tree d).1))
  ∧ (is_Some (searge_class_marker d) → is_Some (searge_class_marker (detect tree d).1))
  ∧ (is_Some (field_method_table_class d) →
     is_Some (field_method_table_class (detect tree d).1)).
Proof.
  unfold detect. destruct (xp_definition_tables _ tree) as [|t ts]; [done|].
  destruct (detect_rows_keeps_set (xp_rows t) (d, ∅)) as [H1 H2].
  pose proof (detect_rows_keeps (xp_rows t) (d, ∅)) as H3.
  destruct (detect_rows (xp_rows t) (d, ∅)) as [[d1 f1] o1]. simpl in *.
  destruct (H3 _ _ eq_refl) as (Htab & _ & _). simpl in Htab.
  assert (Hcase : (detect_table_class tree d1).1 = d1
                  ∨ ∃ c, (detect_table_class tree d1).1 = set_field_method_table_class c d1)
    by apply detect_table_class_cases.
  destruct (detect_table_class tree d1) as [d2 o2]. simpl in *.
  destruct Hcase as [-> | [c ->]]; simpl.
  - rewrite Htab. split; [|split]; auto.
  - split; [|split]; [|auto|eauto].
    intros s Hs. specialize (H1 s Hs). by destruct s.
Qed.

(** X3.  A call of [fetch], whatever it returns or raises, leaves the
    version and the requested type of the instance as they are, removes no
    key from the field mapping or the method mapping, and empties no slot
    of the selectors: what earlier calls stored or detected stays until it
    is overwritten. *)
Theorem fetch_only_adds (net : string → page_error + node) (class_path : string)
    (self : Mappings) :
  let self' := (fetch net class_path self).1.2 in
  version self' = version self
  ∧ mapping_type_requested self' = mapping_type_requested self
  ∧ (∀ w k, is_Some (get_dict w self !! k) → is_Some (get_dict w self' !! k))
  ∧ (∀ s, is_Some (slot_value s (detected_selectors self)) →
          is_Some (slot_value s (detected_selectors self')))
  ∧ (is_Some (searge_class_marker (detected_selectors self)) →
     is_Some (searge_class_marker (detected_selectors self')))
  ∧ (is_Some (field_method_table_class (detected_selectors self)) →
     is_Some (field_method_table_class (detected_selectors self'))).
Proof.
  simpl. rewrite fetch_unfold. simpl.
  destruct (net _) as [pe|tree]; [done|].
  destruct (detect_keeps_set tree (detected_selectors self)) as (Hs & Hsec & Htab).
  set (d := (detect tree (detected_selectors self)).1) in *.
  destruct (class_names tree (set_detected_selectors d self)) as [[r2 s2] o2] eqn:Hcn.
  pose proof (class_names_frame _ _ _ _ _ Hcn) as (Hv2 & Ht2 & Hsel2 & Hf2 & Hm2).
  simpl in Hv2, Ht2, Hsel2, Hf2, Hm2.
  assert (Hdict2 : ∀ w, get_dict w s2 = get_dict w self) by (by intros []).
  destruct r2 as [e|[]]; simpl.
  { rewrite Hsel2, Hv2, Ht2. repeat split; try done. intros w k. by rewrite Hdict2. }
  pose proof (λ w k, members_keeps_keys tree w s2 k) as Hkeys.
  destruct (members tree s2) as [[r3 s3] o3] eqn:Hmem.
  pose proof (members_frame _ _ _ _ _ Hmem) as (Hv3 & Ht3 & Hsel3 & _ & _).
  simpl in Hkeys.
  assert (version s3 = version self ∧ mapping_type_requested s3 = mapping_type_requested self
          ∧ (∀ w k, is_Some (get_dict w self !! k) → is_Some (get_dict w s3 !! k))
          ∧ detected_selectors s3 = d) as (? & ? & ? & Hd).
  { repeat split; try congruence. intros w k Hk. apply Hkeys. by rewrite Hdict2. }
  destruct r3 as [e|[]]; simpl; rewrite Hd; repeat split; done.
Qed.

(** A Mojang instance that read the page of [Entity] still has the field
    [level] and its markers after it read the page of [AABB]. *)
Lemma fetch_only_adds_witness :
  let used := (fetch site "net.minecraft.world.entity.Entity" (initial "1.20.1" MOJANG)).1.2 in
  let later := (fetch site "net.minecraft.world.phys.AABB" used).1.2 in
  is_Some (field_mappings later !! "level")
  ∧ is_Some (slot_value ObfuscatedSlot (detected_selectors later))
  ∧ is_Some (searge_class_marker (detected_selectors later))
  ∧ is_Some (field_method_table_class (detected_selectors later)).
Proof.
  intros used later.
  pose proof (fetch_only_adds site "net.minecraft.world.phys.AABB" used)
    as (_ & _ & Hk & Hs & Hsec & Htab).
  split; [|split; [|split]].
  - apply (Hk FieldMappings "level"). vm_compute. eauto.
  - apply (Hs ObfuscatedSlot). vm_compute. eauto.
  - apply Hsec. vm_compute. eauto.
  - apply Htab. vm_compute. eauto.
Defined.

(** ** Where the detected markers come from *)

Lemma row_sample_text (row : node) (m t : string) :
  row_sample row = Some (m, t) → t ≠ EmptyString.
Proof.
  unfold row_sample. repeat case_match; try discriminate.
  intros [= <- <-] Heq.
  match goal with H : String.eqb _ _ = false |- _ =>
    rewrite Heq in H; by rewrite String.eqb_refl in H end.
Qed.

(** A row changes nothing and prints nothing, or it prints one message for
    one slot, whose marker and name are those of the row, and changes no
    other slot of the per type map and not the obfuscated marker. *)
Lemma detect_row_event (row : node) (st : detect_state) :
  (detect_row row st).2 = [] ∧ (detect_row row st).1.1 = st.1
  ∨ ∃ s m t, (detect_row row st).2 = [Detected s m t]
             ∧ row_sample row = Some (m, t)
             ∧ slot_value s (detect_row row st).1.1 = Some m
             ∧ ∀ s', s' ≠ s → slot_value s' (detect_row row st).1.1 = slot_value s' st.1.
Proof.
  unfold detect_row. destruct st as [d f].
  destruct (row_sample row) as [[m t]|]; [|by left].
  repeat case_match; simpl; try (by left); right; eexists _, m, t;
    (split; [reflexivity|]); (split; [done|]);
    (split; [first [done | apply lookup_insert_eq]|]);
    intros [|t'] Hne; simpl; try done; rewrite lookup_insert_ne; congruence.
Qed.

(** X4.  Detection invents no marker.  Every message of the loop of
    [_detect_selectors] reports a recording; the marker it reports is the
    class attribute, not empty, of the first cell of a row of the table, and
    the name is the trimmed, not empty text of the second cell of that row;
    and a slot for which the pass reports nothing holds after the pass what
    it held before. *)
Theorem detection_records_row_markers (rows : list node) (st : detect_state) :
  let r := detect_rows rows st in
  (∀ e, e ∈ r.2 →
     ∃ s m t row, e = Detected s m t ∧ row ∈ rows ∧ row_sample row = Some (m, t)
                  ∧ m ≠ EmptyString ∧ t ≠ EmptyString)
  ∧ (∀ s, recorded s r.2 = [] → slot_value s r.1.1 = slot_value s st.1).
Proof.
  revert st. induction rows as [|row rows IH]; intros st.
  { simpl. split; [intros e He; by apply not_elem_of_nil in He|done]. }
  simpl. destruct (detect_row_event row st) as [[Ho Hst] | (s & m & t & Ho & Hrow & Hs & Hother)].
  - destruct (detect_row row st) as [st1 o1]. simpl in *. subst o1.
    destruct (IH st1) as [IH1 IH2].
    destruct (detect_rows rows st1) as [st2 o2]. simpl in *. split.
    + intros e He. destruct (IH1 e He) as (s & m & t & row' & ? & ? & ?).
      exists s, m, t, row'. split; [done|]. split; [by apply list_elem_of_further|done].
    + intros s Hs. rewrite <- Hst. by apply IH2.
  - destruct (detect_row row st) as [st1 o1]. simpl in *. subst o1.
    destruct (IH st1) as [IH1 IH2].
    destruct (detect_rows rows st1) as [st2 o2]. simpl in *. split.
    + intros e [->|He]%elem_of_cons.
      * exists s, m, t, row. split; [done|]. split; [apply list_elem_of_here|].
        split; [done|]. split; [by eapply row_sample_marker|by eapply row_sample_text].
      * destruct (IH1 e He) as (s' & m' & t' & row' & ? & ? & ?).
        exists s', m', t', row'. split; [done|]. split; [by apply list_elem_of_further|done].
    + intros s'. unfold recorded. simpl. case_decide as Hdec; [done|].
      intros Hrec. rewrite (IH2 s' Hrec). apply Hother. congruence.
Qed.

(** The table of the page of [Entity]: the marker [m1] reported for Mojang
    is the class of a row, and the Yarn slot, for which nothing is
    reported, stays unset. *)
Lemma detection_records_row_markers_witness :
  (∃ s m t row,
     Detected (TypeSlot MOJANG) "m1" "net.minecraft.world.entity.Entity" = Detected s m t
     ∧ row ∈ [def_row "o1" "ab"; def_row "m1" "net.minecraft.world.entity.Entity"]
     ∧ row_sample row = Some (m, t) ∧ m ≠ EmptyString ∧ t ≠ EmptyString)
  ∧ slot_value (TypeSlot YARN)
      (detect_rows [def_row "o1" "ab"; def_row "m1" "net.minecraft.world.entity.Entity"]
                   (initial_selectors, ∅)).1.1 = None.
Proof.
  pose proof (detection_records_row_markers
                [def_row "o1" "ab"; def_row "m1" "net.minecraft.world.entity.Entity"]
                (initial_selectors, ∅)) as [H1 H2].
  split.
  - apply H1. vm_compute. apply list_elem_of_further, list_elem_of_here.
  - rewrite (H2 (TypeSlot YARN)); [reflexivity|]. vm_compute. reflexivity.
Defined.

Lemma kind_flag_inj (k k' : name_kind) : kind_flag k = kind_flag k' → k = k'.
Proof. by destruct k, k'. Qed.

Lemma kind_slot_flag (k : name_kind) (st : detect_state) :
  frozen (kind_slot k) st ↔ kind_flag k ∈ st.2.
Proof. by destruct k. Qed.

(** The row loop, started with any set of found types: a kind whose type
    is in the set keeps its slot; another kind gets the marker of its first
    row, if it has one. *)
Lemma detect_rows_first (k : name_kind) (rows : list node) (d : selectors)
    (f : gset MappingsType) :
  slot_value (kind_slot k) (detect_rows rows (d, f)).1.1
  = if decide (kind_flag k ∈ f) then slot_value (kind_slot k) d
    else match head (markers_of k rows) with
         | Some m => Some m
         | None => slot_value (kind_slot k) d
         end.
Proof.
  revert d f. induction rows as [|row rows IH]; intros d f.
  { simpl. by case_decide. }
  simpl. destruct (detect_row row (d, f)) as [[d1 f1] o1] eqn:Hrow.
  specialize (IH d1 f1).
  destruct (detect_rows rows (d1, f1)) as [[d2 f2] o2]. simpl in *.
  rewrite IH. clear IH.
  unfold markers_of. simpl. fold (markers_of k rows).
  revert Hrow. unfold detect_row, row_kind.
  destruct (row_sample row) as [[m t]|]; [|intros ?; by simplify_eq].
  destruct (name_kind_of t) as [k'|]; [|intros ?; by simplify_eq].
  destruct (decide (k' = k)) as [->|Hne].
  - (* the row is of kind k *)
    destruct k; simpl; case_bool_decide as Hin; intros ?; simplify_eq; simpl.
    all: try (rewrite !decide_True by done; done).
    all: try (rewrite decide_True by apply found_add_here;
              rewrite decide_False by done; simpl;
              first [done | by rewrite lookup_insert_eq]).
    (* a plain row after the first one may fill the Searge slot only *)
    destruct (searge_class_marker d); simplify_eq; simpl;
      rewrite !decide_True by done; [done|].
    by rewrite lookup_insert_ne.
  - (* the row is of another kind: the slot and the flag of k are as before *)
    intros Hrow.
    assert (Hflag : kind_flag k ∈ f1 ↔ kind_flag k ∈ f).
    { revert Hrow.
      destruct k'; simpl; repeat case_match; intros ?; simplify_eq; try done;
        rewrite elem_of_union, elem_of_singleton; split; auto;
        intros [Heq|?]; [|done|..]; try done;
        exfalso; apply Hne; apply kind_flag_inj; by rewrite Heq. }
    assert (Hslot : slot_value (kind_slot k) d1 = slot_value (kind_slot k) d).
    { revert Hrow.
      destruct k'; simpl; repeat case_match; intros ?; simplify_eq; try done;
        destruct k; simpl; try done; by rewrite ?lookup_insert_ne. }
    rewrite Hslot. by rewrite (decide_ext _ _ _ _ Hflag).
Qed.

(** X5.  After the row loop of [_detect_selectors], which starts with no
    type found, the obfuscated marker is the marker of the first row with
    a short name, the Yarn, Intermediary and Mojang markers are those of the
    first row of their kind, and a kind without a row keeps what its slot
    held before the pass. *)
Theorem first_row_gives_marker (k : name_kind) (rows : list node) (d : selectors) :
  slot_value (kind_slot k) (detect_rows rows (d, ∅)).1.1
  = match head (markers_of k rows) with
    | Some m => Some m
    | None => slot_value (kind_slot k) d
    end.
Proof. by rewrite detect_rows_first. Qed.

(** ** A page without a class definition table *)

Lemma set_detected_selectors_same (self : Mappings) :
  set_detected_selectors (detected_selectors self) self = self.
Proof. by destruct self. Qed.

(** X6.  When the page has no table with a marker cell followed by a name
    cell, [_detect_selectors] returns at once: the selectors of the instance
    stay as they are, the class of the summary tables is not looked for
    even if the page has the headings, and [fetch] goes on with what the
    instance held; on an instance without an obfuscated marker it raises the
    error for that marker. *)
Theorem without_definition_table (net : string → page_error + node) (class_path : string)
    (self : Mappings) (tree : node) :
  xp_definition_tables POTENTIAL_NAME_CELL_CLASS tree = [] →
  net (url_of (version self) class_path) = inr tree →
  _detect_selectors tree self = (inr tt, self, [AttemptDetect; WarnNoDefinitionTable])
  ∧ (obfuscated_class_marker (detected_selectors self) = None →
     fetch net class_path self
     = (inl (ValueError NoObfuscatedMarker), self,
        [HttpGet (url_of (version self) class_path); AttemptDetect; WarnNoDefinitionTable])).
Proof.
  intros Htab Hnet.
  assert (Hdet : detect tree (detected_selectors self)
                 = (detected_selectors self, [AttemptDetect; WarnNoDefinitionTable])).
  { unfold detect. by rewrite Htab. }
  split.
  - rewrite detect_selectors_unfold, Hdet. simpl. by rewrite set_detected_selectors_same.
  - intros Hobf. rewrite fetch_unfold. simpl. rewrite Hnet, Hdet. simpl.
    rewrite set_detected_selectors_same.
    unfold class_names, resolve_markers. by rewrite Hobf.
Qed.

(** The page without tables, read by a fresh instance. *)
Lemma without_definition_table_witness :
  _detect_selectors page_bare (initial "1.20.1" MOJANG)
  = (inr tt, initial "1.20.1" MOJANG, [AttemptDetect; WarnNoDefinitionTable])
  ∧ fetch site "gone" (initial "1.20.1" MOJANG)
    = (inl (ValueError NoObfuscatedMarker), initial "1.20.1" MOJANG,
       [HttpGet (url_of "1.20.1" "gone"); AttemptDetect; WarnNoDefinitionTable]).
Proof.
  pose proof (without_definition_table site "gone" (initial "1.20.1" MOJANG) page_bare
                eq_refl eq_refl) as [H1 H2].
  split; [exact H1|exact (H2 eq_refl)].
Defined.

(** ** The walk over the rows of a summary table *)





Lemma member_rows_keeping (t : MappingsType) (requested_marker obf_marker : string)
    (k : string) (rows : list node) (m : gmap string string) :
  Forall (row_keeps t requested_marker obf_marker k) rows →
  (member_rows t requested_marker obf_marker rows m).1 = None
  ∧ (member_rows t requested_marker obf_marker rows m).2 !! k = m !! k.
Proof.
  intros Hall. revert m. induction Hall as [|row rows Hrow _ IH]; intros m; [done|].
  simpl. destruct (Hrow m) as (m' & -> & Hk).
  destruct (IH m') as [? ?]. split; congruence.
Qed.

Lemma member_rows_snoc_app (t : MappingsType) (requested_marker obf_marker : string)
    (rows1 rows2 : list node) (m : gmap string string) :
  member_rows t requested_marker obf_marker (rows1 ++ rows2) m
  = match member_rows t requested_marker obf_marker rows1 m with
    | (Some e, m1) => (Some e, m1)
    | (None, m1) => member_rows t requested_marker obf_marker rows2 m1
    end.
Proof.
  revert m. induction rows1 as [|row rows1 IH]; intros m; simpl; [done|].
  destruct (member_row t requested_marker obf_marker row m); [done|apply IH].
Qed.

(** X8.  Last write wins.  When the rows before raise nothing, a row
    stores the value [v] under the key [k], and no later row stores
    anything under [k], the walk ends without exception and the mapping
    holds [v] under [k], whatever it or the earlier rows held there. *)
Theorem last_row_wins (t : MappingsType) (requested_marker obf_marker : string)
    (rows1 rows2 : list node) (row : node) (m : gmap string string) (k v : string) :
  (member_rows t requested_marker obf_marker rows1 m).1 = None →
  (∀ m' : gmap string string,
     member_row t requested_marker obf_marker row m' = inr (<[k := v]> m')) →
  Forall (row_keeps t requested_marker obf_marker k) rows2 →
  (member_rows t requested_marker obf_marker (rows1 ++ row :: rows2) m).1 = None
  ∧ (member_rows t requested_marker obf_marker (rows1 ++ row :: rows2) m).2 !! k = Some v.
Proof.
  intros H1 Hrow H2. rewrite member_rows_snoc_app.
  destruct (member_rows t requested_marker obf_marker rows1 m) as [[e|] m1];
    [done|]. simpl. rewrite Hrow.
  destruct (member_rows_keeping t requested_marker obf_marker k rows2 (<[k:=v]> m1) H2)
    as [-> ->]. split; [done|apply lookup_insert_eq].
Qed.

(** Two rows for [level] and a row for [random]: the second [level] row
    decides. *)
Lemma last_row_wins_witness :
  (member_rows MOJANG "m1" "o1"
     ([member_row_of [("m1", "level"); ("o1", "bd")]]
      ++ member_row_of [("m1", "level"); ("o1", "zz")]
      :: [member_row_of [("m1", "random"); ("o1", "be")]]) ∅).2 !! "level" = Some "zz".
Proof.
  refine (proj2 (last_row_wins MOJANG "m1" "o1"
            [member_row_of [("m1", "level"); ("o1", "bd")]]
            [member_row_of [("m1", "random"); ("o1", "be")]]
            (member_row_of [("m1", "level"); ("o1", "zz")]) ∅ "level" "zz" _ _ _)).
  - reflexivity.
  - intros m'. reflexivity.
  - apply Forall_cons. split; [|apply Forall_nil; exact I].
    intros m. eexists. split; [reflexivity|].
    apply lookup_insert_ne. discriminate.
Defined.

(** ** When [_process_member_table] does not walk *)

(** X9.  [_process_member_table] walks the table and prints nothing, or it
    prints one warning and leaves the instance as it is: the warning for
    the obfuscated marker when that marker is missing, and the warning for
    the requested type only for a type other than Searge whose marker is
    missing.  A Searge instance with an obfuscated marker always walks: it
    needs no marker of its own. *)
Theorem member_table_warnings (table : node) (which : member_dict) (self : Mappings) :
  let r := _process_member_table table which self in
  let d := detected_selectors self in
  let t := mapping_type_requested self in
  (r.2 = [] ∧ truthy (obfuscated_class_marker d) = true)
  ∨ (r = (inr tt, self, [WarnNoObfuscatedMemberMarker])
     ∧ truthy (obfuscated_class_marker d) = false)
  ∨ (r = (inr tt, self, [WarnNoRequestedMemberMarker t])
     ∧ t ≠ SEARGE ∧ truthy (class_name_markers d !! t) = false).
Proof.
  simpl. unfold _process_member_table, requested_member_marker.
  destruct (obfuscated_class_marker (detected_selectors self)) as [obf|];
    [|right; left; done].
  destruct (truthy (Some obf)) eqn:Hobf; simpl.
  - destruct (mapping_type_requested self) eqn:Ht.
    4: { destruct (truthy (searge_class_marker (detected_selectors self))) eqn:Hs.
         - destruct (searge_class_marker (detected_selectors self)) as [s|]; [|done].
           rewrite Hs. simpl. left. by destruct (member_rows _ _ _ _ _) as [[e|] m].
         - rewrite Hobf. simpl. left. by destruct (member_rows _ _ _ _ _) as [[e|] m]. }
    all: destruct (class_name_markers (detected_selectors self) !! _) as [req|] eqn:Hreq;
      [destruct (truthy (Some req)) eqn:Hr; simpl;
       [left; by destruct (member_rows _ _ _ _ _) as [[e|] m]
       |right; right; done]
      |right; right; done].
  - right. left.
    by destruct (match mapping_type_requested self with
                 | SEARGE => _ | _ => _ end).
Qed.

(** ** Apostrophes in markers are reported before the member tables *)






(** ** The result of [fetch] *)

Lemma lstrip_by_fixed (p : ascii → bool) (s : string) :
  (∀ c r, s = String c r → p c = false) → lstrip_by p s = s.
Proof.
  destruct s as [|c r]; [done|]. intros H. simpl. by rewrite (H c r eq_refl).
Qed.

Lemma lstrip_by_head (p : ascii → bool) (s : string) (c : ascii) (r : string) :
  lstrip_by p s = String c r → p c = false.
Proof.
  induction s as [|a s IH]; [done|]. simpl.
  destruct (p a) eqn:Ha; [done|]. by intros [= <- <-].
Qed.

Lemma rstrip_by_head (p : ascii → bool) (s : string) (c : ascii) (r : string) :
  (∀ c' r', s = String c' r' → p c' = false) →
  rstrip_by p s = String c r → p c = false.
Proof.
  destruct s as [|a s]; [done|]. intros H. simpl.
  pose proof (H a s eq_refl) as Ha.
  destruct (rstrip_by p s); rewrite ?Ha; by intros [= <- <-].
Qed.

Lemma rstrip_by_twice (p : ascii → bool) (s : string) :
  rstrip_by p (rstrip_by p s) = rstrip_by p s.
Proof.
  induction s as [|a s IH]; [done|]. simpl.
  destruct (rstrip_by p s) as [|b s'] eqn:Hs.
  - destruct (p a) eqn:Ha; [done|]. simpl. by rewrite Ha.
  - change (rstrip_by p (String a (String b s')))
      with (match rstrip_by p (String b s') with
            | EmptyString => if p a then EmptyString else String a EmptyString
            | r' => String a r'
            end).
    by rewrite IH.
Qed.

(** Trimming a trimmed text gives it back. *)
Lemma strip_twice (s : string) : strip (strip s) = strip s.
Proof.
  unfold strip.
  rewrite (lstrip_by_fixed py_isspace (rstrip_by py_isspace (lstrip_by py_isspace s))).
  - apply rstrip_by_twice.
  - intros c r H. eapply rstrip_by_head; [|exact H].
    intros c' r' H'. by eapply lstrip_by_head.
Qed.

Lemma class_names_trimmed (tree : node) (self self' : Mappings) out :
  class_names tree self = (inr tt, self', out) →
  ∃ n o, mapping_class_name self' = Some n ∧ obfuscated_class_name self' = Some o
         ∧ strip n = n ∧ strip o = o.
Proof.
  unfold class_names. repeat case_match; intros [= <- <-]; simpl.
  eexists _, _. split; [done|]. split; [done|]. split; apply strip_twice.
Qed.

(** X11.  When [fetch] returns, the result holds the two class names, both
    without white space at either end, and the two mappings of the
    instance as they are after the call, with what earlier calls stored in
    them. *)
Theorem fetch_result_shape (net : string → page_error + node) (class_path : string)
    (self self' : Mappings) (res : MappingResult) (out : list event) :
  fetch net class_path self = (inr res, self', out) →
  ∃ n o, res = Result (Some n) (Some o) (field_mappings self') (method_mappings self')
         ∧ mapping_class_name self' = Some n ∧ obfuscated_class_name self' = Some o
         ∧ strip n = n ∧ strip o = o.
Proof.
  rewrite fetch_unfold. simpl.
  destruct (net _) as [pe|tree]; [done|].
  destruct (class_names tree _) as [[[e|[]] s2] o2] eqn:Hcn; [done|].
  apply class_names_trimmed in Hcn as (n & o & Hn & Ho & Hsn & Hso).
  destruct (members tree s2) as [[[e|[]] s3] o3] eqn:Hmem; [done|].
  apply members_frame in Hmem as (_ & _ & _ & Hn3 & Ho3).
  intros [= <- <- <-]. exists n, o. rewrite Hn3, Ho3, Hn, Ho. done.
Qed.

(** A Mojang instance that read [Entity] and then [AABB]: the result for
    [AABB] holds the field of [Entity] too. *)
Lemma fetch_result_shape_witness :
  ∃ n o,
    (fetch site "net.minecraft.world.phys.AABB"
       (fetch site "net.minecraft.world.entity.Entity" (initial "1.20.1" MOJANG)).1.2).1.1
    = inr (Result (Some n) (Some o) {[ "level" := "bd" ]} {[ "getBoundingBox" := "e" ]})
    ∧ strip n = n ∧ strip o = o.
Proof.
  destruct (fetch site "net.minecraft.world.phys.AABB"
       (fetch site "net.minecraft.world.entity.Entity" (initial "1.20.1" MOJANG)).1.2)
    as [[r s'] out] eqn:Hf.
  assert (Hr : r = inr (Result (Some "net.minecraft.world.phys.AABB") (Some "cd")
                          {[ "level" := "bd" ]} {[ "getBoundingBox" := "e" ]})).
  { apply (f_equal (λ x, x.1.1)) in Hf. simpl in Hf. rewrite <- Hf.
    vm_compute. reflexivity. }
  subst r.
  destruct (fetch_result_shape _ _ _ _ _ _ Hf) as (n & o & [= <- <-] & _ & _ & Hn & Ho).
  exists "net.minecraft.world.phys.AABB", "cd". done.
Defined.

(** ** What the mappings of an instance hold *)

Section EntriesInvariant.
(** A property of mappings that every row of a walk for type [t] keeps. *)
Variable t : MappingsType.
Variable Q : gmap string string → Prop.
Hypothesis row_keeps_Q :
  ∀ requested_marker obf_marker row (m m' : gmap string string),
    member_row t requested_marker obf_marker row m = inr m' → Q m → Q m'.

Lemma member_rows_invariant (requested_marker obf_marker : string) (rows : list node)
    (m : gmap string string) :
  Q m → Q (member_rows t requested_marker obf_marker rows m).2.
Proof.
  revert m. induction rows as [|row rows IH]; intros m Hm; [done|]. simpl.
  destruct (member_row t requested_marker obf_marker row m) as [e|m'] eqn:Hrow; [done|].
  apply IH. by eapply row_keeps_Q.
Qed.

Lemma process_member_table_invariant (table : node) (which w : member_dict)
    (self : Mappings) :
  mapping_type_requested self = t →
  Q (get_dict w self) → Q (get_dict w (_process_member_table table which self).1.2).
Proof.
  intros Ht Hq. unfold _process_member_table. rewrite Ht.
  repeat case_match; simpl; try done.
  all: match goal with H : member_rows t ?r ?o ?rows ?m = (_, ?m1) |- _ =>
         pose proof (member_rows_invariant r o rows m) as Hkeep;
         rewrite H in Hkeep; simpl in Hkeep end.
  all: destruct which, w; simpl in *; auto.
Qed.

Lemma process_summary_invariant (tree : node) (heading : string) selector
    (which w : member_dict) (self : Mappings) :
  mapping_type_requested self = t →
  Q (get_dict w self) →
  Q (get_dict w (process_summary tree heading selector which self).1.2).
Proof.
  intros Ht Hq. unfold process_summary, raise, ret. repeat case_match; simpl; try done.
  by apply process_member_table_invariant.
Qed.

Lemma members_invariant (tree : node) (w : member_dict) (self : Mappings) :
  mapping_type_requested self = t →
  Q (get_dict w self) → Q (get_dict w (members tree self).1.2).
Proof.
  intros Ht Hq. unfold members, bind. case_match; [done|].
  set (selector := member_table_selector _).
  pose proof (process_summary_invariant tree "Field summary" selector FieldMappings w
                self Ht Hq) as H1.
  destruct (process_summary tree "Field summary" selector FieldMappings self)
    as [[r1 s1] o1] eqn:Hs1.
  pose proof (process_summary_frame _ _ _ _ _ _ _ _ Hs1) as (_ & Ht1 & _).
  destruct r1 as [e|[]]; simpl in *; [done|].
  pose proof (process_summary_invariant tree "Method summary" selector MethodMappings w
                s1 (eq_trans Ht1 Ht) H1) as H2.
  by destruct (process_summary tree "Method summary" selector MethodMappings s1)
    as [[r2 s2] o2].
Qed.

Lemma fetch_invariant (net : string → page_error + node) (class_path : string)
    (w : member_dict) (self : Mappings) :
  mapping_type_requested self = t →
  Q (get_dict w self) → Q (get_dict w (fetch net class_path self).1.2).
Proof.
  intros Ht Hq. rewrite fetch_unfold. simpl.
  destruct (net _) as [pe|tree]; [done|].
  destruct (class_names tree _) as [[r2 s2] o2] eqn:Hcn.
  pose proof (class_names_frame _ _ _ _ _ Hcn) as (_ & Ht2 & _ & Hf2 & Hm2).
  simpl in Ht2, Hf2, Hm2.
  assert (Q (get_dict w s2)) as Hq2 by (destruct w; simpl in *; congruence).
  destruct r2 as [e|[]]; [done|].
  pose proof (members_invariant tree w s2 (eq_trans Ht2 Ht) Hq2) as H3.
  by destruct (members tree s2) as [[[e|[]] s3] o3].
Qed.
End EntriesInvariant.

Lemma searge_scan_names (els : list node) (s o : string) :
  searge_scan els = (Some s, Some o) →
  (∃ e, e ∈ els ∧ s = member_name e ∧ re_searge_member s = true)
  ∧ (∃ e, e ∈ els ∧ o = member_name e ∧ looks_obfuscated o = true).
Proof.
  unfold searge_scan. rewrite searge_scan_last.
  destruct (last (filter re_searge_member _)) as [s'|] eqn:Hs; [|done].
  destruct (last (filter looks_obfuscated _)) as [o'|] eqn:Ho; [|done].
  intros [= <- <-].
  apply last_Some_elem_of, list_elem_of_filter in Hs as [Hs1 Hs2].
  apply last_Some_elem_of, list_elem_of_filter in Ho as [Ho1 Ho2].
  apply list_elem_of_fmap in Hs2 as (e1 & -> & ?).
  apply list_elem_of_fmap in Ho2 as (e2 & -> & ?).
  split; [exists e1|exists e2]; split; try done; split; try done; by apply Is_true_true.
Qed.

Lemma member_row_no_paren (t : MappingsType) (requested_marker obf_marker : string)
    (row : node) (m m' : gmap string string) :
  member_row t requested_marker obf_marker row m = inr m' →
  map_Forall (λ k v, contains "(" k = false ∧ contains "(" v = false) m →
  map_Forall (λ k v, contains "(" k = false ∧ contains "(" v = false) m'.
Proof.
  unfold member_row.
  destruct (xp_cells row) as [|c0 [|scope cs]]; try (by intros [= <-]).
  destruct t.
  1-3: repeat case_match; intros [= <-]; try done; intros Hm;
       apply map_Forall_insert_2; try done; split; apply member_name_no_paren.
  destruct (searge_scan _) as [[s|] [o|]] eqn:Hscan; try (by intros [= <-]).
  apply searge_scan_names in Hscan as [(e1 & _ & -> & _) (e2 & _ & -> & _)].
  case_match; intros [= <-]; [|done]. intros Hm.
  apply map_Forall_insert_2; [|done]. split; apply member_name_no_paren.
Qed.

Lemma member_row_searge_shape (requested_marker obf_marker : string)
    (row : node) (m m' : gmap string string) :
  member_row SEARGE requested_marker obf_marker row m = inr m' →
  map_Forall (λ k v, re_searge_member k = true ∧ looks_obfuscated v = true) m →
  map_Forall (λ k v, re_searge_member k = true ∧ looks_obfuscated v = true) m'.
Proof.
  unfold member_row.
  destruct (xp_cells row) as [|c0 [|scope cs]]; try (by intros [= <-]).
  destruct (searge_scan _) as [[s|] [o|]] eqn:Hscan; try (by intros [= <-]).
  apply searge_scan_names in Hscan as [(e1 & _ & _ & Hs) (e2 & _ & _ & Ho)].
  case_match; intros [= <-]; [|done]. intros Hm.
  by apply map_Forall_insert_2.
Qed.

(** X12.  In every state of an instance, no key and no value of the field
    mapping or of the method mapping contains an opening parenthesis; and
    on a Searge instance every key is a flat token
    [(field_|method_|func_)digits_letter] and every value is a name of one
    to four letters, as the two patterns of the source accept them. *)
Theorem stored_names_shape (self : Mappings) (w : member_dict) :
  reachable self →
  map_Forall (λ k v, contains "(" k = false ∧ contains "(" v = false) (get_dict w self)
  ∧ (mapping_type_requested self = SEARGE →
     map_Forall (λ k v, re_searge_member k = true ∧ looks_obfuscated v = true)
                (get_dict w self)).
Proof.
  induction 1 as [version mapping_type self out Hinit
                 |net class_path self r self' out Hreach [IH1 IH2] Hfetch].
  - assert (self = initial version mapping_type) as ->.
    { unfold __init__ in Hinit. repeat case_match; congruence. }
    destruct w; split; intros; apply map_Forall_empty.
  - assert (self' = (fetch net class_path self).1.2) as -> by (by rewrite Hfetch).
    split.
    + apply (fetch_invariant (mapping_type_requested self) _
               (λ rm om row m m', member_row_no_paren _ rm om row m m')); done.
    + intros Ht.
      assert (mapping_type_requested self = SEARGE) as Ht'.
      { rewrite <- Ht. rewrite fetch_unfold. simpl.
        destruct (net _) as [pe|tree]; [done|].
        destruct (class_names tree _) as [[r2 s2] o2] eqn:Hcn.
        apply class_names_frame in Hcn as (_ & Ht2 & _). simpl in Ht2.
        destruct r2 as [e|[]]; [done|].
        destruct (members tree s2) as [[r3 s3] o3] eqn:Hmem.
        apply members_frame in Hmem as (_ & Ht3 & _).
        destruct r3 as [e|[]]; simpl; congruence. }
      apply (fetch_invariant SEARGE _ member_row_searge_shape); auto.
Qed.

(** A Searge instance after the page of [AABB]: the method entry is a flat
    token for a short name, without the signatures of the page. *)
Lemma stored_names_shape_witness :
  map_Forall (λ k v, contains "(" k = false ∧ contains "(" v = false)
    (method_mappings (fetch site "net.minecraft.world.phys.AABB"
                        (initial "1.20.1" SEARGE)).1.2)
  ∧ map_Forall (λ k v, re_searge_member k = true ∧ looks_obfuscated v = true)
      (method_mappings (fetch site "net.minecraft.world.phys.AABB"
                          (initial "1.20.1" SEARGE)).1.2).
Proof.
  destruct (fetch site "net.minecraft.world.phys.AABB" (initial "1.20.1" SEARGE))
    as [[r s'] out] eqn:Hf.
  pose proof (stored_names_shape s' MethodMappings
                (reachable_fetch _ _ _ _ _ _ (reachable_initial "1.20.1" SEARGE eq_refl) Hf))
    as [H1 H2].
  split; [exact H1|]. apply H2.
  apply (f_equal (λ x, mapping_type_requested x.1.2)) in Hf. simpl in Hf.
  rewrite <- Hf. vm_compute. reflexivity.
Defined.

(** ** The address of a class page *)

Lemma append_inv_head (p x y : string) : p +:+ x = p +:+ y → x = y.
Proof. induction p as [|c p IH]; simpl; [done|]. intros [= H]. by apply IH. Qed.

Lemma length_append (x y : string) :
  String.length (x +:+ y) = (String.length x + String.length y)%nat.
Proof. induction x as [|c x IH]; simpl; [done|]. by rewrite IH. Qed.

Lemma append_inv_tail (x y suffix : string) : x +:+ suffix = y +:+ suffix → x = y.
Proof.
  revert y. induction x as [|c x IH]; intros [|d y] H; simpl in *; [done|..].
  - apply (f_equal String.length) in H. simpl in H. rewrite !length_append in H.
    simpl in H. lia.
  - apply (f_equal String.length) in H. simpl in H. rewrite !length_append in H.
    simpl in H. lia.
  - injection H as -> H. f_equal. by apply IH.
Qed.

Lemma contains_slash_cons (c : ascii) (s : string) :
  contains "/" (String c s) = Ascii.eqb "/" c || contains "/" s.
Proof. simpl. by rewrite andb_true_r. Qed.

Lemma replace_back (s : string) :
  contains "/" s = false → replace "/" "." (replace "." "/" s) = s.
Proof.
  induction s as [|c s IH]; [done|].
  rewrite contains_slash_cons. intros [Hc Hs]%orb_false_elim. simpl.
  rewrite (IH Hs). f_equal.
  destruct (Ascii.eqb_spec c "."); [by subst|].
  rewrite Ascii.eqb_sym in Hc. by rewrite Hc.
Qed.

Lemma replace_twice (s : string) :
  replace "." "/" (replace "." "/" s) = replace "." "/" s.
Proof.
  induction s as [|c s IH]; [done|]. simpl. rewrite IH. f_equal.
  destruct (Ascii.eqb c ".") eqn:Hc; [done|]. by rewrite Hc.
Qed.

(** X13.  The address of a class page is the site, the version, the class
    path with its dots turned into slashes, and [.html]; two class paths
    without a slash have the same address for a version only if they are
    the same, while a class path and the same path written with slashes
    share one address. *)
Theorem url_of_class_path (version : string) (a b : string) :
  (contains "/" a = false → contains "/" b = false →
   url_of version a = url_of version b → a = b)
  ∧ url_of version (replace "." "/" a) = url_of version a
  ∧ contains "." (replace "." "/" a) = false.
Proof.
  split; [|split].
  - intros Ha Hb H. unfold url_of in H.
    apply append_inv_head, append_inv_head, append_inv_head, append_inv_tail in H.
    by rewrite <- (replace_back a), <- (replace_back b), H.
  - unfold url_of. by rewrite replace_twice.
  - induction a as [|c a IH]; [done|]. simpl replace.
    change (contains "." (String ?x ?r))
      with (Ascii.eqb "." x && true || contains "." r).
    rewrite IH, andb_true_r, orb_false_r.
    destruct (Ascii.eqb_spec c "."); [done|].
    by apply Ascii.eqb_neq.
Qed.

(** The addresses of [Entity] and of [AABB] differ. *)
Lemma url_of_class_path_witness :
  url_of "1.20.1" "net.minecraft.world.entity.Entity"
  ≠ url_of "1.20.1" "net.minecraft.world.phys.AABB".
Proof.
  intros H.
  apply (proj1 (url_of_class_path "1.20.1" "net.minecraft.world.entity.Entity"
                  "net.minecraft.world.phys.AABB") eq_refl eq_refl) in H.
  discriminate H.
Defined.

(** ** The start of [hits.py] *)

Lemma init_returns_initial (version : string) (t : MappingsType) (self : Mappings)
    (out : list event) :
  __init__ version t = (inr self, out) → self = initial version t ∧ requests out = [].
Proof. unfold __init__. repeat case_match; intros [= <- <-]; done. Qed.

Lemma fetch_class_requests (net : string → page_error + node)
    (get_class : MappingResult → bool) (class_path : string) (self : Mappings) :
  requests (fetch_class net get_class class_path self).2 = [url_of (version self) class_path]
  ∧ version (fetch_class net get_class class_path self).1.2 = version self.
Proof.
  unfold fetch_class.
  pose proof (fetch_requests net class_path self) as Hreq.
  pose proof (fetch_keeps_version net class_path self) as Hv.
  destruct (fetch net class_path self) as [[[e|res] s'] out]; simpl in *; [done|].
  by destruct (get_class res).
Qed.

(** X14.  The script asks for the pages of [Minecraft], [Entity] and
    [AABB] of its version, in this order and nothing else, and stops at
    the first call that raises: the requests made are a prefix of the
    three, and all three when the script gets past line 24.  For a version
    whose minor part is below 15 the constructor refuses Mojang names and
    the script stops before any request. *)
Theorem load_classes_requests (version : string) (net : string → page_error + node)
    (get_class : MappingResult → bool) :
  let r := load_classes version net get_class in
  let pages := map (url_of version) ["net.minecraft.client.Minecraft";
                                     "net.minecraft.world.entity.Entity";
                                     "net.minecraft.world.phys.AABB"] in
  (∃ n, requests r.2 = take n pages)
  ∧ (∀ results, r.1 = inr results → requests r.2 = pages)
  ∧ (∀ n, minor_version version = inr n → (n < 15)%Z →
          r = (inl (MappingsRaised (InvalidMappingTypeError version MOJANG)), [])).
Proof.
  simpl. unfold load_classes.
  destruct (__init__ version MOJANG) as [[e|mappings] out0] eqn:Hinit.
  { split; [|split]; [|done|].
    - exists 0%nat. unfold __init__ in Hinit. by repeat case_match; simplify_eq.
    - intros n Hn Hlt. unfold __init__ in Hinit. rewrite Hn in Hinit.
      rewrite (proj2 (Z.ltb_lt n 15) Hlt) in Hinit. simpl in Hinit. by simplify_eq. }
  assert (Hgate : ∀ n, minor_version version = inr n → (n < 15)%Z → False).
  { intros n Hn Hlt. unfold __init__ in Hinit. rewrite Hn in Hinit.
    rewrite (proj2 (Z.ltb_lt n 15) Hlt) in Hinit. simpl in Hinit. discriminate. }
  apply init_returns_initial in Hinit as [-> Hout0].
  pose proof (fetch_class_requests net get_class "net.minecraft.client.Minecraft"
                (initial version MOJANG)) as [Hr1 Hv1].
  destruct (fetch_class net get_class "net.minecraft.client.Minecraft" _)
    as [[[e|r1] s1] o1]; simpl in Hr1, Hv1.
  { simpl. rewrite requests_app, Hout0, Hr1. split; [by exists 1%nat|].
    split; [done|]. intros n Hn Hlt. destruct (Hgate n Hn Hlt). }
  pose proof (fetch_class_requests net get_class "net.minecraft.world.entity.Entity" s1)
    as [Hr2 Hv2].
  destruct (fetch_class net get_class "net.minecraft.world.entity.Entity" s1)
    as [[[e|r2] s2] o2]; simpl in Hr2, Hv2; rewrite Hv1 in Hr2, Hv2.
  { simpl. rewrite !requests_app, Hout0, Hr1, Hr2. split; [by exists 2%nat|].
    split; [done|]. intros n Hn Hlt. destruct (Hgate n Hn Hlt). }
  pose proof (fetch_class_requests net get_class "net.minecraft.world.phys.AABB" s2)
    as [Hr3 Hv3].
  destruct (fetch_class net get_class "net.minecraft.world.phys.AABB" s2)
    as [[[e|r3] s3] o3]; simpl in Hr3, Hv3; rewrite Hv2 in Hr3, Hv3;
    simpl; rewrite !requests_app, Hout0, Hr1, Hr2, Hr3;
    (split; [by exists 3%nat|]); (split; [done|]);
    intros n Hn Hlt; destruct (Hgate n Hn Hlt).
Qed.

(** Version 1.14.4: no request.  Version 1.20.1 on the sample site, with a
    binding that accepts every class: the three requests. *)
Lemma load_classes_requests_witness :
  load_classes "1.14.4" site (λ _, true)
  = (inl (MappingsRaised (InvalidMappingTypeError "1.14.4" MOJANG)), [])
  ∧ requests (load_classes "1.20.1" site (λ _, true)).2
    = ["https://mappings.dev/1.20.1/net/minecraft/client/Minecraft.html";
       "https://mappings.dev/1.20.1/net/minecraft/world/entity/Entity.html";
       "https://mappings.dev/1.20.1/net/minecraft/world/phys/AABB.html"].
Proof.
  split.
  - exact (proj2 (proj2 (load_classes_requests "1.14.4" site (λ _, true)))
             14%Z eq_refl eq_refl).
  - destruct (load_classes "1.20.1" site (λ _, true)) as [[e|results] out] eqn:Hrun.
    + exfalso. apply (f_equal fst) in Hrun. vm_compute in Hrun. discriminate.
    + pose proof (proj1 (proj2 (load_classes_requests "1.20.1" site (λ _, true)))) as H.
      simpl in H. rewrite Hrun in H. exact (H results eq_refl).
Defined.

(** ** The table class and the test built from it *)

Lemma all_chars_cons (q : ascii → bool) (c : ascii) (s : string) :
  all_chars q (String c s) = q c && all_chars q s.
Proof. done. Qed.

Lemma all_chars_app (q : ascii → bool) (x y : string) :
  all_chars q (x +:+ y) = all_chars q x && all_chars q y.
Proof.
  induction x as [|c x IH]; [done|].
  change (String c x +:+ y) with (String c (x +:+ y)).
  by rewrite !all_chars_cons, IH, andb_assoc.
Qed.

Lemma xp_isspace_py (c : ascii) : xp_isspace c = true → py_isspace c = true.
Proof. by destruct c as [[] [] [] [] [] [] [] []]. Qed.

Lemma append_cons_end (cur : string) (c : ascii) (r : string) :
  (cur +:+ String c EmptyString) +:+ r = cur +:+ String c r.
Proof.
  induction cur as [|a cur IH]; [done|].
  change (String a ((cur +:+ String c EmptyString) +:+ r) = String a (cur +:+ String c r)).
  by rewrite IH.
Qed.

Lemma append_nil_r (s : string) : s +:+ EmptyString = s.
Proof.
  induction s as [|a s IH]; [done|].
  change (String a (s +:+ EmptyString) = String a s). by rewrite IH.
Qed.

Lemma append_not_nil (cur : string) (c : ascii) : cur +:+ String c EmptyString ≠ EmptyString.
Proof. by destruct cur. Qed.

Lemma split_ws_aux_not_nil (cur s : string) : cur ≠ EmptyString → split_ws_aux cur s ≠ [].
Proof.
  revert cur. induction s as [|c s IH]; intros cur Hcur; simpl.
  - by destruct cur.
  - destruct (py_isspace c); [by destruct cur|]. apply IH, append_not_nil.
Qed.

(** [normalize-space] and [str.split] see the same words when the text has
    only white space both know. *)
Lemma collapse_split (s : string) :
  xpath_spaces_only s = true →
  (∀ cur, cur ≠ EmptyString →
     cur +:+ collapse false s = join_blank (split_ws_aux cur s))
  ∧ collapse true s = match split_ws_aux EmptyString s with
                      | [] => EmptyString
                      | ws => String " " (join_blank ws)
                      end.
Proof.
  unfold xpath_spaces_only. induction s as [|c s IH].
  { intros _. split; [|done]. intros cur Hcur. simpl.
    rewrite append_nil_r. by destruct cur. }
  rewrite all_chars_cons. intros [Hc Hs]%andb_prop.
  destruct (IH Hs) as [IHa IHb]. clear IH.
  assert (Hsp : xp_isspace c = py_isspace c).
  { destruct (py_isspace c) eqn:Hpy; [done|].
    destruct (xp_isspace c) eqn:Hxp; [|done]. apply xp_isspace_py in Hxp. congruence. }
  split.
  - intros cur Hcur. simpl. rewrite Hsp.
    destruct (py_isspace c).
    + rewrite IHb. destruct cur as [|a cur]; [done|].
      destruct (split_ws_aux EmptyString s) as [|w ws]; [apply append_nil_r|done].
    + rewrite <- (IHa _ (append_not_nil cur c)). by rewrite append_cons_end.
  - cbn [collapse split_ws_aux]. rewrite Hsp. destruct (py_isspace c); [exact IHb|].
    change (EmptyString +:+ String c EmptyString) with (String c EmptyString).
    pose proof (IHa (String c EmptyString) ltac:(done)) as H.
    pose proof (split_ws_aux_not_nil (String c EmptyString) s ltac:(done)) as Hne.
    destruct (split_ws_aux (String c EmptyString) s) as [|w ws] eqn:Hw; [done|].
    by rewrite <- H.
Qed.

Lemma normalize_space_split (s : string) :
  xpath_spaces_only s = true → normalize_space s = join_blank (split_ws s).
Proof.
  unfold normalize_space, split_ws, xpath_spaces_only.
  induction s as [|c s IH]; [done|].
  rewrite all_chars_cons. intros [Hc Hs]%andb_prop.
  assert (Hsp : xp_isspace c = py_isspace c).
  { destruct (py_isspace c) eqn:Hpy; [done|].
    destruct (xp_isspace c) eqn:Hxp; [|done]. apply xp_isspace_py in Hxp. congruence. }
  simpl. rewrite Hsp. destruct (py_isspace c) eqn:Hpy; [by apply IH|].
  cbn [collapse]. rewrite Hsp.
  destruct (collapse_split s Hs) as [Ha _].
  exact (Ha (String c EmptyString) ltac:(done)).
Qed.

Lemma split_ws_aux_tokens (q : ascii → bool) (cur s : string) (tok : string) :
  all_chars q cur = true → all_chars q s = true →
  all_chars (λ c, negb (py_isspace c)) cur = true →
  tok ∈ split_ws_aux cur s →
  tok ≠ EmptyString ∧ all_chars q tok = true
  ∧ all_chars (λ c, negb (py_isspace c)) tok = true.
Proof.
  revert cur. induction s as [|c s IH]; intros cur Hq Hs Hcur; simpl.
  - destruct cur as [|a cur]; [by intros ?%not_elem_of_nil|].
    intros ->%list_elem_of_singleton. done.
  - rewrite all_chars_cons in Hs. apply andb_prop in Hs as [Hc Hs].
    destruct (py_isspace c) eqn:Hsp.
    + destruct cur as [|a cur]; [by apply IH|].
      intros [->|Hin]%elem_of_cons; [done|]. by apply (IH EmptyString).
    + apply IH; [|done|].
      * by rewrite all_chars_app, Hq, all_chars_cons, Hc.
      * by rewrite all_chars_app, Hcur, all_chars_cons, Hsp.
Qed.

Lemma rstrip_by_clean (p : ascii → bool) (s : string) :
  all_chars (λ c, negb (p c)) s = true → rstrip_by p s = s.
Proof.
  induction s as [|c s IH]; [done|].
  rewrite all_chars_cons. intros [Hc Hs]%andb_prop. simpl.
  rewrite (IH Hs). apply negb_true_iff in Hc. rewrite Hc. by destruct s.
Qed.

Lemma strip_clean (s : string) :
  all_chars (λ c, negb (py_isspace c)) s = true → strip s = s.
Proof.
  intros H. unfold strip. rewrite lstrip_by_fixed; [by apply rstrip_by_clean|].
  intros c r ->. rewrite all_chars_cons in H. apply andb_prop in H as [H _].
  by apply negb_true_iff.
Qed.

(** The tokens [fetch] builds the test from are the words of the class. *)
Lemma selector_tokens (c : string) :
  map strip (filter (λ cls, negb (String.eqb (strip cls) "")) (split_ws c)) = split_ws c.
Proof.
  unfold split_ws.
  assert (H : ∀ tok, tok ∈ split_ws_aux EmptyString c →
                     tok ≠ EmptyString ∧ strip tok = tok).
  { intros tok Hin.
    destruct (split_ws_aux_tokens (λ _, true) EmptyString c tok) as (Hne & _ & Hcl);
      [done|by clear; induction c|done|done|].
    split; [done|by apply strip_clean]. }
  induction (split_ws_aux EmptyString c) as [|w ws IH]; [done|].
  destruct (H w) as [Hne Hw]; [apply list_elem_of_here|].
  rewrite filter_cons_True.
  - simpl. rewrite Hw. f_equal. apply IH. intros tok Hin. apply H.
    by apply list_elem_of_further.
  - rewrite Hw. apply Is_true_true, negb_true_iff. by apply String.eqb_neq.
Qed.

Lemma contains_char (a : ascii) (s : string) :
  contains (String a EmptyString) s = negb (all_chars (λ c, negb (Ascii.eqb a c)) s).
Proof.
  induction s as [|c s IH]; [done|].
  rewrite all_chars_cons.
  change (contains (String a EmptyString) (String c s))
    with (Ascii.eqb a c && true || contains (String a EmptyString) s).
  rewrite IH, andb_true_r. by destruct (Ascii.eqb a c).
Qed.

Lemma startswith_append (p s : string) : startswith p (p +:+ s) = true.
Proof.
  induction p as [|a p IH]; [done|].
  change (String a p +:+ s) with (String a (p +:+ s)). simpl.
  by rewrite Ascii.eqb_refl, IH.
Qed.

Lemma contains_here (p s : string) : contains p (p +:+ s) = true.
Proof.
  destruct (p +:+ s) eqn:H; simpl; rewrite <- ?H, startswith_append; done.
Qed.

Lemma contains_later (p a s : string) : contains p s = true → contains p (a +:+ s) = true.
Proof.
  intros H. induction a as [|c a IH]; [done|].
  change (String c a +:+ s) with (String c (a +:+ s)). simpl contains.
  rewrite IH. apply orb_true_r.
Qed.

Lemma append_assoc (x y z : string) : (x +:+ y) +:+ z = x +:+ (y +:+ z).
Proof.
  induction x as [|c x IH]; [done|].
  change (String c ((x +:+ y) +:+ z) = String c (x +:+ (y +:+ z))). by rewrite IH.
Qed.

(** A word of a text is found between blanks in the words joined by
    blanks. *)
Lemma contains_word (tok : string) (ws : list string) :
  tok ∈ ws →
  contains (" " +:+ tok +:+ " ") (" " +:+ join_blank ws +:+ " ") = true.
Proof.
  induction ws as [|w ws IH]; [by intros ?%not_elem_of_nil|].
  destruct ws as [|w' ws].
  - intros Hin. apply list_elem_of_singleton in Hin. subst w. simpl join_blank.
    rewrite <- (append_nil_r (" " +:+ tok +:+ " ")) at 2. apply contains_here.
  - intros [Heq|Hin]%elem_of_cons.
    + subst w. change (join_blank (tok :: w' :: ws))
        with (tok +:+ String " " (join_blank (w' :: ws))).
      replace (" " +:+ (tok +:+ String " " (join_blank (w' :: ws))) +:+ " ")
        with ((" " +:+ tok +:+ " ") +:+ (join_blank (w' :: ws) +:+ " ")).
      * apply contains_here.
      * rewrite !append_assoc. reflexivity.
    + specialize (IH Hin).
      change (join_blank (w :: w' :: ws))
        with (w +:+ String " " (join_blank (w' :: ws))).
      replace (" " +:+ (w +:+ String " " (join_blank (w' :: ws))) +:+ " ")
        with ((" " +:+ w) +:+ (" " +:+ join_blank (w' :: ws) +:+ " ")).
      * by apply contains_later.
      * rewrite !append_assoc. reflexivity.
Qed.

Lemma split_ws_literal (c tok : string) :
  literal_ok c = true → tok ∈ split_ws c → literal_ok tok = true.
Proof.
  unfold literal_ok. rewrite !contains_char, !negb_involutive. intros H Hin.
  by destruct (split_ws_aux_tokens (λ ch, negb (Ascii.eqb "'" ch)) EmptyString c tok)
    as (_ & H' & _).
Qed.

Lemma class_has_words (t : node) (c tok : string) :
  get_class t = Some c → xpath_spaces_only c = true → tok ∈ split_ws c →
  class_has_token tok t = true.
Proof.
  intros Hc Hx Hin. unfold class_has_token.
  rewrite Hc, normalize_space_split by done. by apply contains_word.
Qed.

Lemma filter_none {A} (p : A → bool) (l : list A) :
  (∀ x, x ∈ l → p x = false) → filter p l = [].
Proof.
  induction l as [|a l IH]; [done|]. intros H.
  rewrite filter_cons_False.
  - apply IH. intros x Hx. by apply H, list_elem_of_further.
  - rewrite (H a); [by intros []|apply list_elem_of_here].
Qed.

(** With a class that holds no apostrophe and at least one word, the test
    asks for every word of the class. *)
Lemma member_table_selector_words (c : string) :
  literal_ok c = true → split_ws c ≠ [] →
  member_table_selector c = inr (λ n, forallb (λ cls, class_has_token cls n) (split_ws c)).
Proof.
  intros Hlit Hne. unfold member_table_selector. rewrite selector_tokens.
  rewrite filter_none.
  - by destruct (split_ws c).
  - intros tok Hin. by rewrite (split_ws_literal c tok).
Qed.

(** The first element that passes a test is also the first that passes a
    stronger test it passes. *)
Lemma filter_first {A} (p q : A → bool) (l : list A) (t : A) (r : list A) :
  filter p l = t :: r → (∀ x, q x = true → p x = true) → q t = true →
  ∃ r', filter q l = t :: r'.
Proof.
  intros Hf Hqp Hq. induction l as [|a l IH]; [done|].
  destruct (p a) eqn:Hp.
  - rewrite filter_cons_True in Hf by by rewrite Hp. simplify_eq.
    rewrite filter_cons_True by by rewrite Hq. eauto.
  - rewrite filter_cons_False in Hf by (rewrite Hp; intros []).
    rewrite filter_cons_False; [by apply IH|].
    intros Hqa. apply Is_true_true in Hqa. apply Hqp in Hqa. congruence.
Qed.

Lemma xp_next_table_same (cond : node → bool) (h : loc) (t : node) (r : list node) :
  xp_next_table (λ _, true) h = t :: r → cond t = true → xp_next_table cond h = [t].
Proof.
  unfold xp_next_table. intros H Hc.
  destruct (filter (λ s, is_tag "table" s && true) (after h)) as [|t' r'] eqn:Hf; [done|].
  simplify_eq.
  assert (Ht : is_tag "table" t = true).
  { assert (Hin : t ∈ filter (λ s, is_tag "table" s && true) (after h))
      by (rewrite Hf; apply list_elem_of_here).
    apply list_elem_of_filter in Hin as [Hin _]. apply Is_true_true in Hin.
    by apply andb_prop in Hin as [? _]. }
  destruct (filter_first (λ s, is_tag "table" s && true)
              (λ s, is_tag "table" s && cond s) (after h) t r' Hf) as [r'' ->]; [| |done].
  - intros x [Hx _]%andb_prop. by rewrite Hx.
  - by rewrite Ht, Hc.
Qed.

(** X15.  The class that detection read from the table after a heading
    selects that same table when the members are processed: if the class has
    no apostrophe and no white space other than what XPath knows, then
    either it has no word at all and the test cannot be built (an XPath
    evaluation error), or the test built from its words is passed by the
    table it was read from, which is the table walked for that heading. *)
Theorem table_class_selects_its_table (heading : string) (tree : node) (c : string)
    (which : member_dict) :
  summary_table_class heading tree = Some c →
  xpath_spaces_only c = true →
  literal_ok c = true →
  (split_ws c = [] ∧ member_table_selector c = inl XPathEvalError
   ∧ process_summary tree heading (member_table_selector c) which = raise XPathEvalError)
  ∨ (∃ cond h hs t,
       member_table_selector c = inr cond
       ∧ xp_h4 heading tree = h :: hs
       ∧ xp_next_table (λ _, true) h = [t]
       ∧ get_class t = Some c
       ∧ cond t = true
       ∧ process_summary tree heading (member_table_selector c) which
         = _process_member_table t which).
Proof.
  intros Hsum Hx Hlit. unfold summary_table_class in Hsum.
  destruct (xp_h4 heading tree) as [|h hs] eqn:Hh; [done|].
  destruct (xp_next_table (λ _, true) h) as [|t ts] eqn:Ht; [done|].
  destruct (truthy (get_class t)); [|done].
  assert (Hone : ts = []).
  { unfold xp_next_table in Ht.
    by destruct (filter (λ s, is_tag "table" s && true) (after h)); simplify_eq. }
  subst ts.
  destruct (split_ws c) as [|w ws] eqn:Hw.
  - left. assert (Hsel : member_table_selector c = inl XPathEvalError).
    { unfold member_table_selector. by rewrite selector_tokens, Hw. }
    split; [done|]. split; [done|]. unfold process_summary. by rewrite Hh, Hsel.
  - right.
    pose proof (member_table_selector_words c Hlit ltac:(by rewrite Hw)) as Hsel.
    assert (Hcond : forallb (λ cls, class_has_token cls t) (split_ws c) = true).
    { apply forallb_forall. intros tok Hin. apply (class_has_words t c tok); [done..|].
      by apply list_elem_of_In. }
    eexists _, h, hs, t. split; [exact Hsel|]. split; [done|]. split; [done|].
    split; [done|]. split; [exact Hcond|].
    unfold process_summary. rewrite Hh, Hsel.
    by rewrite (xp_next_table_same _ h t [] Ht Hcond).
Qed.

Lemma table_class_selects_its_table_witness :
  summary_table_class "Field summary" page_entity = Some "t1"
  ∧ ∃ t, get_class t = Some "t1"
       ∧ process_summary page_entity "Field summary" (member_table_selector "t1") FieldMappings
         = _process_member_table t FieldMappings.
Proof.
  split; [reflexivity|].
  destruct (table_class_selects_its_table "Field summary" page_entity "t1" FieldMappings)
    as [(Hw & _)|(cond & h & hs & t & _ & _ & _ & Hc & _ & Hp)];
    [reflexivity|reflexivity|reflexivity|by vm_compute in Hw|].
  by exists t.
Defined.

(** ** Names the detection does not take for Mojang names *)

Lemma taken_before_mojang_kind (t : string) :
  taken_before_mojang t = true → name_kind_of t ≠ Some PlainName.
Proof.
  unfold taken_before_mojang, name_kind_of. intros H.
  destruct (looks_obfuscated t); [done|].
  destruct (startswith "net.minecraft." t || startswith "com.mojang." t); [|done].
  by destruct (contains "Client" t), (contains "Impl" t), (contains "class_" t).
Qed.

Lemma markers_of_none (k : name_kind) (rows : list node) :
  (∀ row m t, row ∈ rows → row_sample row = Some (m, t) → name_kind_of t ≠ Some k) →
  markers_of k rows = [].
Proof.
  induction rows as [|row rows IH]; [done|]. intros H.
  assert (Hhead : match row_kind row with
                  | Some (m, k') => if decide (k' = k) then Some m else None
                  | None => None
                  end = None).
  { unfold row_kind. destruct (row_sample row) as [[m t]|] eqn:Hrow; [|done].
    pose proof (H row m t (list_elem_of_here _ _) Hrow) as Hk.
    destruct (name_kind_of t) as [k'|]; [|done].
    case_decide; [congruence|done]. }
  unfold markers_of in *. simpl. rewrite Hhead.
  apply IH. intros row' m t Hin. apply H. by apply list_elem_of_further.
Qed.

(** X16.  The loop of [_detect_selectors] tests a full name for [Client]
    and [Impl], then for [class_], before it takes it for a Mojang name.  On
    an instance for Mojang names that holds no Mojang marker, a page whose
    class table has only short names and names with [Client], [Impl] or
    [class_] in them leaves the Mojang marker unset, and [fetch] raises the
    [ValueError] for the requested type, or the one for the obfuscated
    marker when that marker is missing too. *)
Theorem names_taken_before_mojang (net : string → page_error + node) (class_path : string)
    (self : Mappings) (tree table : node) (tables : list node) :
  mapping_type_requested self = MOJANG →
  class_name_markers (detected_selectors self) !! MOJANG = None →
  net (url_of (version self) class_path) = inr tree →
  xp_definition_tables POTENTIAL_NAME_CELL_CLASS tree = table :: tables →
  (∀ row m t, row ∈ xp_rows table → row_sample row = Some (m, t) →
              taken_before_mojang t = true) →
  let d := detected_selectors (_detect_selectors tree self).1.2 in
  class_name_markers d !! MOJANG = None
  ∧ (fetch net class_path self).1.1
    = inl (ValueError (if truthy (obfuscated_class_marker d)
                       then NoMarkerForType MOJANG else NoObfuscatedMarker)).
Proof.
  intros Htype Hnone Hnet Htab Hrows. rewrite detect_selectors_unfold. simpl.
  assert (Hm : class_name_markers (detect tree (detected_selectors self)).1 !! MOJANG = None).
  { unfold detect. rewrite Htab.
    pose proof (detect_rows_first PlainName (xp_rows table) (detected_selectors self) ∅)
      as Hfirst.
    rewrite markers_of_none in Hfirst
      by (intros row m t Hin Hrow; eapply taken_before_mojang_kind, Hrows; eauto).
    rewrite decide_False in Hfirst by set_solver.
    destruct (detect_rows (xp_rows table) (detected_selectors self, ∅)) as [[d1 f1] o1].
    simpl in Hfirst.
    destruct (detect_table_class_cases tree d1) as [Hc | [c Hc]];
      destruct (detect_table_class tree d1) as [d2 o2]; simpl in *; subst d2; simpl;
      congruence. }
  split; [done|].
  rewrite fetch_unfold. simpl. rewrite Hnet.
  set (d := (detect tree (detected_selectors self)).1) in *.
  unfold class_names, resolve_markers, requested_class_marker. simpl.
  rewrite Htype, Hm.
  destruct (obfuscated_class_marker d) as [obf|]; [|done].
  by destruct (truthy (Some obf)).
Qed.

(** The page of [ClientLevel]: the only full name has [Client] in it, and a
    new instance for Mojang names finds no marker for them. *)
Lemma names_taken_before_mojang_witness :
  (fetch (λ _, inr page_client_level) "net.minecraft.client.multiplayer.ClientLevel"
         (initial "1.20.1" MOJANG)).1.1
  = inl (ValueError (NoMarkerForType MOJANG)).
Proof.
  refine (proj2 (names_taken_before_mojang (λ _, inr page_client_level)
                   "net.minecraft.client.multiplayer.ClientLevel"
                   (initial "1.20.1" MOJANG) page_client_level
                   (Elem "table" [] [def_row "o1" "ab";
                      def_row "m1" "net.minecraft.client.multiplayer.ClientLevel"]) []
                   eq_refl eq_refl eq_refl eq_refl _)).
  intros row m t Hin Hrow.
  apply elem_of_cons in Hin as [->|Hin];
    [|apply list_elem_of_singleton in Hin; subst row];
    vm_compute in Hrow; injection Hrow as <- <-; reflexivity.
Defined.

(** ** Results of earlier calls *)

Lemma fetch_keeps_keys (net : string → page_error + node) (class_path : string)
    (self : Mappings) (w : member_dict) (k : string) :
  is_Some (get_dict w self !! k) →
  is_Some (get_dict w (fetch net class_path self).1.2 !! k).
Proof.
  intros Hk. rewrite fetch_unfold. simpl.
  destruct (net _) as [pe|tree]; [done|].
  set (d := (detect tree (detected_selectors self)).1).
  destruct (class_names tree (set_detected_selectors d self)) as [[r2 s2] o2] eqn:Hcn.
  pose proof (class_names_frame _ _ _ _ _ Hcn) as (_ & _ & _ & Hf2 & Hm2).
  simpl in Hf2, Hm2.
  assert (Hk2 : is_Some (get_dict w s2 !! k)) by (destruct w; simpl in *; congruence).
  destruct r2 as [e|[]]; simpl; [done|].
  pose proof (members_keeps_keys tree w s2 k Hk2) as Hkeys.
  by destruct (members tree s2) as [[[e|[]] s3] o3].
Qed.

Lemma fetch_result_dicts (net : string → page_error + node) (class_path : string)
    (self self' : Mappings) (res : MappingResult) (out : list event) :
  fetch net class_path self = (inr res, self', out) →
  fields res = field_mappings self' ∧ methods res = method_mappings self'.
Proof.
  rewrite fetch_unfold. simpl. intros H.
  destruct (net _) as [pe|tree]; [done|].
  destruct (class_names tree _) as [[[e|[]] s2] o2]; [done|].
  destruct (members tree s2) as [[[e|[]] s3] o3]; [done|].
  by simplify_eq.
Qed.

(** X17.  The dictionary an earlier call of [fetch] returned shares its
    two mappings with the instance: after a later call on the same instance
    it shows its own two class names with the fields and methods of the later
    result, and these hold every key the earlier result held when it was
    returned. *)
Theorem earlier_result_shows_later_members (net : string → page_error + node)
    (class_path1 class_path2 : string) (self s1 s2 : Mappings)
    (res1 res2 : MappingResult) (o1 o2 : list event) :
  fetch net class_path1 self = (inr res1, s1, o1) →
  fetch net class_path2 s1 = (inr res2, s2, o2) →
  seen_after res1 s2
  = Result (class_name res1) (result_obfuscated_class_name res1) (fields res2) (methods res2)
  ∧ (∀ k, is_Some (fields res1 !! k) → is_Some (fields res2 !! k))
  ∧ (∀ k, is_Some (methods res1 !! k) → is_Some (methods res2 !! k)).
Proof.
  intros H1 H2.
  destruct (fetch_result_dicts _ _ _ _ _ _ H1) as [Hf1 Hm1].
  destruct (fetch_result_dicts _ _ _ _ _ _ H2) as [Hf2 Hm2].
  split; [unfold seen_after; by rewrite Hf2, Hm2|].
  pose proof (fetch_keeps_keys net class_path2 s1) as Hk. rewrite H2 in Hk. simpl in Hk.
  split; intros k Hs.
  - rewrite Hf1 in Hs. rewrite Hf2. exact (Hk FieldMappings k Hs).
  - rewrite Hm1 in Hs. rewrite Hm2. exact (Hk MethodMappings k Hs).
Qed.

(** The result for [Entity] holds the field [level], and so does the result
    for [AABB], whose page has no field. *)
Lemma earlier_result_shows_later_members_witness :
  ∃ res1 res2,
    (fetch site "net.minecraft.world.entity.Entity" (initial "1.20.1" MOJANG)).1.1 = inr res1
    ∧ (fetch site "net.minecraft.world.phys.AABB"
             (fetch site "net.minecraft.world.entity.Entity" (initial "1.20.1" MOJANG)).1.2).1.1
      = inr res2
    ∧ is_Some (fields res1 !! "level") ∧ is_Some (fields res2 !! "level").
Proof.
  destruct (fetch site "net.minecraft.world.entity.Entity" (initial "1.20.1" MOJANG))
    as [[[e|res1] s1] o1] eqn:H1; [vm_compute in H1; discriminate|]. simpl.
  destruct (fetch site "net.minecraft.world.phys.AABB" s1) as [[[e|res2] s2] o2] eqn:H2.
  { exfalso. vm_compute in H1. simplify_eq; vm_compute in H2; discriminate. }
  exists res1, res2. split; [done|]. split; [done|].
  destruct (earlier_result_shows_later_members site _ _ _ _ _ _ _ _ _ H1 H2)
    as (_ & Hf & _).
  assert (Hlevel : is_Some (fields res1 !! "level")).
  { clear H2 Hf. vm_compute in H1. simplify_eq. vm_compute. eauto. }
  split; [done|]. by apply Hf.
Defined.
